(** * Table.ts: the vector-table facade and its orchestration entry points

    A shallow embedding of [src/electron/main/database/Table.ts] and the
    properties of its batch writer, reconciliation and point updates.

    Conventions of the embedding:
    - a JavaScript object used as a row ([Record<string, unknown>]) is a
      finite map from field names to values; the [as unknown as] casts of
      the source are the identity on such maps;
    - [null] is [None];
    - an [async] function is a computation in the monad [M]: it threads the
      store and the count of clock readings, it may throw, and it returns
      the list of calls it issued against the store and the progress
      callback (every [await] is sequential in the source, so the order of
      the list is the order of the calls);
    - [new Date()] is the next reading of a clock given as the sequence of
      its readings, in milliseconds; nothing is assumed of that sequence;
    - [console.log] and [console.error] have no influence on control flow
      and are left out. *)

From Stdlib Require Import ZArith QArith Ascii String List Sorted Lia.
From stdpp Require Import gmap strings list.
From Equations Require Import Equations.

Local Open Scope string_scope.
Local Open Scope nat_scope.

(** ** Values, rows and records *)

(** The values a row can hold.  The components of a [Float32Array] are kept
    as integers: nothing below looks inside a vector. *)
Inductive JSValue :=
| VString (s : string)
| VNumber (n : Z)
| VDate (ms : Z)
| VVector (v : list Z).

Abbreviation RawRow := (gmap string JSValue).

(** Modelled from the spec: [./Schema] (the [DatabaseFields] enum) is not
    part of the sources; the field identifiers are those of the interface
    [RagnoteDBEntry], which rows are cast to and from. *)
Module DatabaseFields.
Definition NOTE_PATH : string := "notepath".
Definition VECTOR : string := "vector".
Definition CONTENT : string := "content".
Definition SUB_NOTE_INDEX : string := "subnoteindex".
Definition TIME_ADDED : string := "timeadded".
End DatabaseFields.

(** [interface RagnoteDBEntry] *)
Record RagnoteDBEntry := {
  notepath : string;
  vector : option (list Z);
  content : string;
  subnoteindex : Z;
  timeadded : Z
}.

(** The object behind a [RagnoteDBEntry]: an optional field that was not
    set is an absent key. *)
Definition entry_to_record (e : RagnoteDBEntry) : RawRow :=
  let base : RawRow :=
    <["notepath" := VString (notepath e)]>
    (<["content" := VString (content e)]>
    (<["subnoteindex" := VNumber (subnoteindex e)]>
    (<["timeadded" := VDate (timeadded e)]> ∅))) in
  match vector e with
  | Some v => <["vector" := VVector v]> base
  | None => base
  end.

(** Modelled from the spec: [../Files/Types] is not part of the sources;
    of [FileInfo] only the field [path] is read here. *)
Record FileInfo := { path : string }.

(** ** Errors, queries and the calls that are observed *)

Inductive JSError :=
| TypeError (msg : string)
| Error (msg : string).

Inductive result (A : Type) :=
| Ok (a : A)
| Throw (e : JSError).
Arguments Ok {A} a.
Arguments Throw {A} e.

(** What [table.search] is given: a text to embed or a vector. *)
Inductive QueryKey :=
| QText (query : string)
| QVector (v : list Z).

(** The query object built by [search(..)], [.limit(..)] and
    [.filter(..)]; the builder methods update it and return it. *)
Record LanceQuery := {
  q_key : QueryKey;
  q_limit : option nat;
  q_filter : option string
}.

Definition lance_search (k : QueryKey) : LanceQuery :=
  {| q_key := k; q_limit := None; q_filter := None |}.
Definition with_limit (n : nat) (q : LanceQuery) : LanceQuery :=
  {| q_key := q_key q; q_limit := Some n; q_filter := q_filter q |}.
Definition with_filter (f : string) (q : LanceQuery) : LanceQuery :=
  {| q_key := q_key q; q_limit := q_limit q; q_filter := Some f |}.

(** A call that reached the store, with what it answered, or an invocation
    of the progress callback. *)
Inductive Event :=
| TableAdd (chunk : list RawRow) (r : result unit)
| TableDelete (filter : string) (r : result unit)
| TableExecute (q : LanceQuery) (r : result (list RawRow))
| TableCountRows (r : result nat)
| OnProgress (progress : Q).

(** The table handle of the [vectordb] package ([LanceDBTable<any>]), as
    the methods this file calls, over a store state [S]. *)
Record LanceDBTable (S : Type) := {
  lance_add : list RawRow -> S -> result unit * S;
  lance_delete : string -> S -> result unit * S;
  lance_execute : LanceQuery -> S -> result (list RawRow) * S;
  lance_countRows : S -> result nat * S
}.
Arguments lance_add {S}.
Arguments lance_delete {S}.
Arguments lance_execute {S}.
Arguments lance_countRows {S}.

(** ** The monad of asynchronous computations *)

Record State (S : Type) := {
  store : S;
  dates_read : nat
}.
Arguments store {S}.
Arguments dates_read {S}.

Record Outcome (S A : Type) := {
  res : result A;
  final : State S;
  events : list Event
}.
Arguments res {S A}.
Arguments final {S A}.
Arguments events {S A}.

Definition M (S A : Type) : Type := State S -> Outcome S A.

Definition ret {S A} (a : A) : M S A :=
  fun st => {| res := Ok a; final := st; events := [] |}.

Definition throw {S A} (e : JSError) : M S A :=
  fun st => {| res := Throw e; final := st; events := [] |}.

Definition bind {S A B} (m : M S A) (k : A -> M S B) : M S B :=
  fun st =>
    let o := m st in
    match res o with
    | Ok a =>
        let o' := k a (final o) in
        {| res := res o'; final := final o'; events := events o ++ events o' |}
    | Throw e => {| res := Throw e; final := final o; events := events o |}
    end.

(** [try { m } catch (error) { h error }] *)
Definition try_catch {S A} (m : M S A) (h : JSError -> M S A) : M S A :=
  fun st =>
    let o := m st in
    match res o with
    | Ok a => o
    | Throw e =>
        let o' := h e (final o) in
        {| res := res o'; final := final o'; events := events o ++ events o' |}
    end.

Declare Scope async_scope.
Delimit Scope async_scope with async.
Notation "x <- c1 ;; c2" := (bind c1 (fun x => c2))
  (at level 100, c1 at next level, right associativity) : async_scope.
Notation "c1 ;; c2" := (bind c1 (fun _ => c2))
  (at level 100, right associativity) : async_scope.

Definition emit {S} (e : Event) : M S unit :=
  fun st => {| res := Ok tt; final := st; events := [e] |}.

(** A call of a method of the store: the store answers and is updated, and
    the call is observed together with its answer. *)
Definition store_call {S A} (f : S -> result A * S)
    (ev : result A -> Event) : M S A :=
  fun st =>
    let '(r, s') := f (store st) in
    {| res := r;
       final := {| store := s'; dates_read := dates_read st |};
       events := [ev r] |}.

(** ** Chunking *)

Definition chunkSize : nat := 50.

(** [l.slice(i, j)] for [0 <= i <= j] *)
Definition slice {A} (l : list A) (i j : nat) : list A :=
  take (j - i) (drop i l).

(** [for (let i = 0; i < recordEntry.length; i += chunkSize)
       chunks.push(recordEntry.slice(i, i + chunkSize))] *)
Equations? chunk_loop {A} (recordEntry : list A) (i : nat)
    (chunks : list (list A)) : list (list A)
    by wf (length recordEntry - i) lt :=
  chunk_loop recordEntry i chunks with decide (i < length recordEntry) => {
    | left _ :=
        chunk_loop recordEntry (i + chunkSize)
          (chunks ++ [slice recordEntry i (i + chunkSize)]);
    | right _ := chunks }.
Proof. unfold chunkSize. lia. Qed.

Definition ceil_div (n d : nat) : nat := (n + d - 1) / d.

(** ** The program *)

(** [class RagnoteTable]: the four fields are declared with [!] and are
    [undefined] until [initialize] has run. *)
Record RagnoteTable (S Connection EmbeddingFunction : Type) := {
  table : option (LanceDBTable S);
  embedFun : option EmbeddingFunction;
  userDirectory : option string;
  dbConnection : option Connection
}.
Arguments table {S Connection EmbeddingFunction}.
Arguments embedFun {S Connection EmbeddingFunction}.
Arguments userDirectory {S Connection EmbeddingFunction}.
Arguments dbConnection {S Connection EmbeddingFunction}.

(** [new RagnoteTable()] *)
Definition new_RagnoteTable {S Connection EmbeddingFunction} :
    RagnoteTable S Connection EmbeddingFunction :=
  {| table := None; embedFun := None; userDirectory := None;
     dbConnection := None |}.

(** [function convertRawDBResultToRagnoteDBEntry]; [k in record] is the
    presence of the key. *)
Definition has_key (k : string) (record : RawRow) : bool :=
  match record !! k with Some _ => true | None => false end.

Definition convertRawDBResultToRagnoteDBEntry (record : RawRow)
    : option RawRow :=
  if has_key DatabaseFields.NOTE_PATH record &&
     has_key DatabaseFields.VECTOR record &&
     has_key DatabaseFields.CONTENT record &&
     has_key DatabaseFields.SUB_NOTE_INDEX record &&
     has_key DatabaseFields.TIME_ADDED record
  then Some record
  else None.

(** [function convertToRecord] *)
Definition convertToRecord (entry : RagnoteDBEntry) : RawRow :=
  entry_to_record entry.

(** [set.has(p)] for a string [p], on the values put into the set (a
    missing property is [undefined], here [None]); only membership of a
    [Set] is used, so the set is the list of its insertions. *)
Definition set_has (s : list (option JSValue)) (p : string) : bool :=
  existsb (fun v => match v with
                    | Some (VString q) => String.eqb q p
                    | _ => false
                    end) s.

(** The string made of one double quote. *)
Definition dq : string := String (ascii_of_nat 34) EmptyString.

(** [index / totalChunks]; the divisor is never 0 where this is used.
    The quotient of two such counts orders and equals 1 in floating point
    as it does in the rationals. *)
Definition js_div (index totalChunks : nat) : Q :=
  Z.of_nat index # Pos.of_nat totalChunks.

Section Program.
Context {S Connection EmbeddingFunction FileInfoTree : Type}.

(** The environment: the successive readings of the wall clock, the file
    system, and the collaborators imported from other modules. *)
Variable clock : nat -> Z.
Variable readFileSync : string -> option string.
Variable GetFilesInfoList : string -> list string -> list FileInfo.
Variable flattenFileInfoTree : FileInfoTree -> list FileInfo.
Variable createEmbeddingFunction :
  string -> string -> M S EmbeddingFunction.
Variable GetOrCreateLanceTable :
  Connection -> EmbeddingFunction -> string -> M S (LanceDBTable S).

Abbreviation Table := (RagnoteTable S Connection EmbeddingFunction).
Abbreviation Async := (M S).
Abbreviation ProgressCallback := (Q -> M S unit).

Local Open Scope async_scope.

(** [new Date()] *)
Definition new_Date : Async Z :=
  fun st =>
    {| res := Ok (clock (dates_read st));
       final := {| store := store st; dates_read := Datatypes.S (dates_read st) |};
       events := [] |}.

(** A callback that records the fraction it is given and does nothing
    else. *)
Definition spy : ProgressCallback := fun progress => emit (OnProgress progress).

(** [this.table.m]: reading a property of [undefined] throws. *)
Definition this_table (this : Table) : Async (LanceDBTable S) :=
  match table this with
  | Some t => ret t
  | None => throw (TypeError "Cannot read properties of undefined")
  end.

(** [RagnoteTable.initialize]; the object it updates is returned.  (In
    the source the fields other than [table] are already set when
    [GetOrCreateLanceTable] throws; no operation reads them.) *)
Definition RagnoteTable_initialize (this : Table)
    (dbConnection : Connection) (userDirectory : string) : Async Table :=
  embedFun <- createEmbeddingFunction "Xenova/bge-base-en-v1.5" "content";;
  t <- GetOrCreateLanceTable dbConnection embedFun userDirectory;;
  ret {| table := Some t; embedFun := Some embedFun;
         userDirectory := Some userDirectory;
         dbConnection := Some dbConnection |}.

(** The second loop of [RagnoteTable.add]. *)
Fixpoint add_loop (this : Table) (onProgress : option ProgressCallback)
    (totalChunks : nat) (chunks : list (list RawRow)) (index : nat)
    : Async unit :=
  match chunks with
  | [] => ret tt
  | chunk :: rest =>
      try_catch
        (t <- this_table this;;
         store_call (lance_add t chunk) (TableAdd chunk))
        (fun error => ret tt);;
      let index := Datatypes.S index in
      let progress := js_div index totalChunks in
      match onProgress with
      | Some cb => cb progress
      | None => ret tt
      end;;
      add_loop this onProgress totalChunks rest index
  end.

(** [RagnoteTable.add] *)
Definition RagnoteTable_add (this : Table) (data : list RagnoteDBEntry)
    (onProgress : option ProgressCallback) : Async unit :=
  let recordEntry := map entry_to_record data in
  let chunks := chunk_loop recordEntry 0 [] in
  let index := 0 in
  let totalChunks := length chunks in
  add_loop this onProgress totalChunks chunks index.

(** [RagnoteTable.delete] *)
Definition RagnoteTable_delete (this : Table) (filter : string)
    : Async unit :=
  t <- this_table this;;
  store_call (lance_delete t filter) (TableDelete filter).

(** [RagnoteTable.search]; [if (filter)] is false for a missing and for
    an empty string. *)
Definition RagnoteTable_search (this : Table) (query : string)
    (limit : nat) (filter : option string)
    : Async (list (option RawRow)) :=
  t <- this_table this;;
  let lanceQuery := with_limit limit (lance_search (QText query)) in
  let lanceQuery :=
    match filter with
    | Some f => if String.eqb f EmptyString then lanceQuery
                else with_filter f lanceQuery
    | None => lanceQuery
    end in
  rawResults <-
    store_call (lance_execute t lanceQuery) (TableExecute lanceQuery);;
  let mapped := map convertRawDBResultToRagnoteDBEntry rawResults in
  ret mapped.

(** The query of [RagnoteTable.filter]. *)
Definition filter_query (filterString : string) (limit : nat)
    : LanceQuery :=
  with_limit limit
    (with_filter filterString (lance_search (QVector (replicate 768 1%Z)))).

(** [RagnoteTable.filter]; [limit] defaults to 10. *)
Definition RagnoteTable_filter (this : Table) (filterString : string)
    (limit : option nat) : Async (list (option RawRow)) :=
  let limit := default 10 limit in
  t <- this_table this;;
  rawResults <-
    store_call (lance_execute t (filter_query filterString limit))
               (TableExecute (filter_query filterString limit));;
  let mapped := map convertRawDBResultToRagnoteDBEntry rawResults in
  ret mapped.

(** [RagnoteTable.countRows] *)
Definition RagnoteTable_countRows (this : Table) : Async nat :=
  t <- this_table this;;
  store_call (lance_countRows t) TableCountRows.

(** [function readFile] *)
Definition readFile (filePath : string) : string :=
  match readFileSync filePath with
  | Some data => data
  | None => EmptyString
  end.

(** [convertFileTypeToDBType] *)
Definition convertFileTypeToDBType (file : FileInfo)
    : Async RagnoteDBEntry :=
  let content := readFile (path file) in
  now <- new_Date;;
  ret {| notepath := path file; vector := None; content := content;
         subnoteindex := 0; timeadded := now |}.

(** [l.map(f)] for an [f] with effects. *)
Fixpoint mapM {A B} (f : A -> Async B) (l : list A) : Async (list B) :=
  match l with
  | [] => ret []
  | x :: rest =>
      y <- f x;;
      ys <- mapM f rest;;
      ret (y :: ys)
  end.

(** [x.notepath] for an element of a result list: [null] has no
    properties. *)
Definition get_notepath (x : option RawRow) : Async (option JSValue) :=
  match x with
  | Some record => ret (record !! DatabaseFields.NOTE_PATH)
  | None => throw (TypeError "Cannot read properties of null")
  end.

(** [getTableAsArray] *)
Definition getTableAsArray (table : Table)
    : Async (list (option RawRow)) :=
  totalRows <- RagnoteTable_countRows table;;
  if Nat.eqb totalRows 0 then ret []
  else
    nonEmptyResults <-
      RagnoteTable_filter table (DatabaseFields.CONTENT ++ " != ''")
                          (Some totalRows);;
    emptyResults <-
      RagnoteTable_filter table (DatabaseFields.CONTENT ++ " = ''")
                          (Some totalRows);;
    let results := (nonEmptyResults ++ emptyResults)%list in
    ret results.

(** [maybeRePopulateTable] *)
Definition maybeRePopulateTable (table : Table) (directoryPath : string)
    (extensionsToFilterFor : list string)
    (onProgress : option ProgressCallback) : Async unit :=
  let filesInfoList := GetFilesInfoList directoryPath extensionsToFilterFor in
  tableArray <- getTableAsArray table;;
  tableArrayPaths <- mapM get_notepath tableArray;;
  filesToAdd <-
    mapM convertFileTypeToDBType
      (List.filter (fun fileInfo => negb (set_has tableArrayPaths (path fileInfo)))
                   filesInfoList);;
  RagnoteTable_add table filesToAdd onProgress;;
  match onProgress with
  | Some cb => cb 1%Q
  | None => ret tt
  end;;
  _ <- RagnoteTable_countRows table;;
  ret tt.

(** [isFileInDB] *)
Definition isFileInDB (table : Table) (filePath : string)
    (tableCount : nat) : Async bool :=
  if Nat.eqb tableCount 0 then ret false
  else
    results <-
      RagnoteTable_filter table
        (DatabaseFields.NOTE_PATH ++ " = '" ++ filePath ++ "'")
        (Some tableCount);;
    ret (Nat.ltb 0 (length results)).

(** [deleteAllRowsInTable] *)
Definition deleteAllRowsInTable (db : Table) : Async unit :=
  try_catch
    (RagnoteTable_delete db (DatabaseFields.CONTENT ++ " != ''");;
     RagnoteTable_delete db (DatabaseFields.CONTENT ++ " = ''"))
    (fun error => ret tt).

(** [convertTreeToDBEntries] *)
Definition convertTreeToDBEntries (tree : FileInfoTree)
    : Async (list RagnoteDBEntry) :=
  let flattened := flattenFileInfoTree tree in
  mapM convertFileTypeToDBType flattened.

(** [addTreeToTable] *)
Definition addTreeToTable (dbTable : Table) (fileTree : FileInfoTree)
    : Async unit :=
  dbEntries <- convertTreeToDBEntries fileTree;;
  RagnoteTable_add dbTable dbEntries None.

(** The loop of [removeTreeFromTable]. *)
Fixpoint remove_loop (dbTable : Table) (filePaths : list string)
    : Async unit :=
  match filePaths with
  | [] => ret tt
  | filePath :: rest =>
      RagnoteTable_delete dbTable
        (DatabaseFields.NOTE_PATH ++ " = " ++ dq ++ filePath ++ dq);;
      remove_loop dbTable rest
  end.

(** [removeTreeFromTable] *)
Definition removeTreeFromTable (dbTable : Table) (fileTree : FileInfoTree)
    : Async unit :=
  let flattened := flattenFileInfoTree fileTree in
  let filePaths := map path flattened in
  remove_loop dbTable filePaths.

(** [updateNoteInTable] *)
Definition updateNoteInTable (dbTable : Table) (filePath : string)
    (content : string) : Async unit :=
  RagnoteTable_delete dbTable
    (DatabaseFields.NOTE_PATH ++ " = " ++ dq ++ filePath ++ dq);;
  currentTimestamp <- new_Date;;
  RagnoteTable_add dbTable
    [ {| notepath := filePath; vector := None; content := content;
         subnoteindex := 0; timeadded := currentTimestamp |} ]
    None.

(** [populateDBWithFiles] *)
Definition populateDBWithFiles (db : Table) (filesInfo : list FileInfo)
    : Async unit :=
  entries <- mapM convertFileTypeToDBType filesInfo;;
  RagnoteTable_add db entries None.

End Program.

(** ** An in-memory store

    Modelled from the spec: the vector store client (the [vectordb]
    package) is an external collaborator, described only by its interface:
    [add(rows)], [delete(filterExpr)], a query bounded by a limit and
    narrowed by a filter expression, [countRows()].  This instance keeps
    the rows in a list, in insertion order; [add] stores each row with the
    vector that the bound embedding function computes from its content; a
    filter expression is a comparison [field = 'text'] or [field != 'text']
    (with either kind of quote), and one that does not parse is an error of
    the call.  The two scripts say which of the coming [add] and [delete]
    calls fail. *)
Module MemStore.

Record t := {
  rows : list RawRow;
  add_faults : list bool;
  delete_faults : list bool
}.

Fixpoint split_at (c : ascii) (s : string) : option (string * string) :=
  match s with
  | EmptyString => None
  | String d s' =>
      if Ascii.eqb d c then Some (EmptyString, s')
      else match split_at c s' with
           | Some (a, b) => Some (String d a, b)
           | None => None
           end
  end.

Definition is_quote (c : ascii) : bool :=
  Ascii.eqb c (ascii_of_nat 39) || Ascii.eqb c (ascii_of_nat 34).

(** ['text'] or ["text"], with no quote of the same kind inside. *)
Definition unquote (s : string) : option string :=
  match s with
  | String q body =>
      if is_quote q then
        match split_at q body with
        | Some (lit, EmptyString) => Some lit
        | _ => None
        end
      else None
  | EmptyString => None
  end.

(** The field, whether the comparison is [!=], and the text. *)
Definition parse_filter (f : string) : option (string * bool * string) :=
  match split_at " " f with
  | Some (field, rest) =>
      match split_at " " rest with
      | Some (op, quoted) =>
          match unquote quoted with
          | Some lit =>
              if String.eqb op "=" then Some (field, false, lit)
              else if String.eqb op "!=" then Some (field, true, lit)
              else None
          | None => None
          end
      | None => None
      end
  | None => None
  end.

Definition holds (p : string * bool * string) (r : RawRow) : bool :=
  let '(field, negated, lit) := p in
  match r !! field with
  | Some (VString s) => xorb negated (String.eqb s lit)
  | _ => false
  end.

(** What a filter expression decides about a row; none is selected by an
    expression that does not parse. *)
Definition matches (f : string) (r : RawRow) : bool :=
  match parse_filter f with
  | Some p => holds p r
  | None => false
  end.

Definition embed_row (embed : string -> list Z) (r : RawRow) : RawRow :=
  match r !! "content" with
  | Some (VString c) => <["vector" := VVector (embed c)]> r
  | _ => <["vector" := VVector (embed EmptyString)]> r
  end.

Definition add (embed : string -> list Z) (chunk : list RawRow) (s : t)
    : result unit * t :=
  match add_faults s with
  | true :: faults =>
      (Throw (Error "add failed"),
       {| rows := rows s; add_faults := faults;
          delete_faults := delete_faults s |})
  | _ =>
      (Ok tt,
       {| rows := rows s ++ map (embed_row embed) chunk;
          add_faults := tail (add_faults s);
          delete_faults := delete_faults s |})
  end.

Definition delete (filter : string) (s : t) : result unit * t :=
  match delete_faults s with
  | true :: faults =>
      (Throw (Error "delete failed"),
       {| rows := rows s; add_faults := add_faults s;
          delete_faults := faults |})
  | _ =>
      let s' keep :=
        {| rows := keep; add_faults := add_faults s;
           delete_faults := tail (delete_faults s) |} in
      match parse_filter filter with
      | Some p =>
          (Ok tt, s' (List.filter (fun r => negb (holds p r)) (rows s)))
      | None => (Throw (Error "invalid filter"), s' (rows s))
      end
  end.

Definition execute (q : LanceQuery) (s : t)
    : result (list RawRow) * t :=
  let limit := default 10 (q_limit q) in
  match q_filter q with
  | None => (Ok (take limit (rows s)), s)
  | Some f =>
      match parse_filter f with
      | Some p => (Ok (take limit (List.filter (holds p) (rows s))), s)
      | None => (Throw (Error "invalid filter"), s)
      end
  end.

Definition countRows (s : t) : result nat * t :=
  (Ok (length (rows s)), s).

Definition lance (embed : string -> list Z) : LanceDBTable t :=
  {| lance_add := add embed;
     lance_delete := delete;
     lance_execute := execute;
     lance_countRows := countRows |}.

(** A table bound to an embedding that maps every text to the zero
    vector of 768 components, and a state from a list of rows. *)
Definition zero_embed (_ : string) : list Z := replicate 768 0%Z.

Definition initialized : RagnoteTable t unit unit :=
  {| table := Some (lance zero_embed); embedFun := Some tt;
     userDirectory := Some "notes"; dbConnection := Some tt |}.

Definition state (l : list RawRow) (af df : list bool) : State t :=
  {| store := {| rows := l; add_faults := af; delete_faults := df |};
     dates_read := 0 |}.

End MemStore.

(** ** A small directory

    Inputs on which the program is run below: two notes, one of them
    empty, a clock that advances by one at each reading and one that
    stands still, and a row that lacks four of the five fields. *)
Module Scenario.

Definition clock (n : nat) : Z := (1000 + Z.of_nat n)%Z.

Definition frozen_clock (_ : nat) : Z := 1000%Z.

Definition readFileSync (filePath : string) : option string :=
  if String.eqb filePath "a.md" then Some "alpha"
  else if String.eqb filePath "b.md" then Some EmptyString
  else None.

Definition files : list FileInfo :=
  [ {| path := "a.md" |}; {| path := "b.md" |} ].

Definition GetFilesInfoList (_ : string) (_ : list string)
    : list FileInfo := files.

Definition flattenFileInfoTree (tree : list FileInfo) : list FileInfo :=
  tree.

Definition note (filePath text : string) (t : Z) : RagnoteDBEntry :=
  {| notepath := filePath; vector := None; content := text;
     subnoteindex := 0; timeadded := t |}.

Definition batch (n : nat) : list RagnoteDBEntry :=
  replicate n (note "a.md" "alpha" 1000).

Definition stored (filePath text : string) (t : Z) : RawRow :=
  MemStore.embed_row MemStore.zero_embed
    (entry_to_record (note filePath text t)).

Definition malformed : RawRow := {[ "notepath" := VString "a.md" ]}.

End Scenario.

Local Open Scope list_scope.

(** * Observations *)

(** ** What a list of events says *)

(** The chunks handed to the store, in the order of the calls. *)
Definition write_calls (evs : list Event) : list (list RawRow) :=
  flat_map (fun ev => match ev with TableAdd c _ => [c] | _ => [] end) evs.

(** The fractions given to the progress callback, in order. *)
Definition progress_calls (evs : list Event) : list Q :=
  flat_map (fun ev => match ev with OnProgress q => [q] | _ => [] end) evs.

(** The filters of the delete calls, in order. *)
Definition delete_calls (evs : list Event) : list string :=
  flat_map (fun ev => match ev with TableDelete f _ => [f] | _ => [] end) evs.

(** The filter of the delete calls of [removeTreeFromTable] and
    [updateNoteInTable]: [notepath = "<path>"]. *)
Definition path_equals (filePath : string) : string :=
  ("notepath = " ++ dq ++ filePath ++ dq)%string.

(** Every write call in the list was answered without error. *)
Definition writes_succeeded (evs : list Event) : bool :=
  forallb (fun ev => match ev with
                     | TableAdd _ (Throw _) => false
                     | _ => true
                     end) evs.

(** The rows of a note path among the rows of a table. *)
Definition row_of_path (filePath : string) (r : RawRow) : bool :=
  match r !! "notepath"%string with
  | Some (VString q) => String.eqb q filePath
  | _ => false
  end.

Definition rows_for (filePath : string) (l : list RawRow) : list RawRow :=
  List.filter (row_of_path filePath) l.

(** The queries executed, in order. *)
Definition query_calls (evs : list Event) : list LanceQuery :=
  flat_map (fun ev => match ev with TableExecute q _ => [q] | _ => [] end) evs.

Section Observations.
Context {S : Type}.
Implicit Types (tbl : LanceDBTable S).

(** The callback argument of a caller that observes progress, or not. *)
Definition observer (observed : bool) : option (Q -> M S unit) :=
  if observed then Some spy else None.

(** The answers of the store to successive write calls, and the store
    they leave. *)
Fixpoint add_answers tbl (chunks : list (list RawRow)) (s : S)
    : list (result unit) :=
  match chunks with
  | [] => []
  | chunk :: rest =>
      fst (lance_add tbl chunk s) ::
      add_answers tbl rest (snd (lance_add tbl chunk s))
  end.

Fixpoint add_store tbl (chunks : list (list RawRow)) (s : S) : S :=
  match chunks with
  | [] => s
  | chunk :: rest => add_store tbl rest (snd (lance_add tbl chunk s))
  end.

(** One write call per chunk, each followed, whatever its answer, by the
    progress callback when there is one. *)
Fixpoint add_trace (observed : bool) (totalChunks index : nat)
    (calls : list (list RawRow * result unit)) : list Event :=
  match calls with
  | [] => []
  | (chunk, r) :: rest =>
      TableAdd chunk r ::
      (if observed then [OnProgress (js_div (Datatypes.S index) totalChunks)]
       else []) ++
      add_trace observed totalChunks (Datatypes.S index) rest
  end.

(** *** What is assumed of a store

    The behaviour of the store that the reconciliation and the point
    update rely on, for a store whose rows are [rows_of s] and whose
    filter expressions are decided by [matches]: a count is the number
    of rows; a filter query answers with rows of the table that match,
    and with all of them when its limit is at least the number of rows;
    neither changes the store; a write that succeeds appends one row per
    given row, which keeps every field given and has a vector; a delete
    that succeeds removes exactly the rows that match. *)
Definition kept_as (given kept : RawRow) : Prop :=
  (forall k, k <> "vector"%string -> kept !! k = given !! k) /\
  is_Some (kept !! "vector"%string).

Record StoreLaws tbl (rows_of : S -> list RawRow)
    (matches : string -> RawRow -> bool) : Prop := {
  law_count : forall s n s',
    lance_countRows tbl s = (Ok n, s') ->
    s' = s /\ n = length (rows_of s);
  law_execute : forall f limit s rs s',
    lance_execute tbl (filter_query f limit) s = (Ok rs, s') ->
    s' = s /\
    (forall r, r ∈ rs -> r ∈ rows_of s /\ matches f r = true) /\
    (length (rows_of s) <= limit ->
     forall r, r ∈ rows_of s -> matches f r = true -> r ∈ rs);
  law_add : forall chunk s s',
    lance_add tbl chunk s = (Ok tt, s') ->
    exists stored,
      rows_of s' = rows_of s ++ stored /\ Forall2 kept_as chunk stored;
  law_delete : forall f s s',
    lance_delete tbl f s = (Ok tt, s') ->
    rows_of s' = List.filter (fun r => negb (matches f r)) (rows_of s)
}.

(** A row whose content is a string is found by one of the two content
    filters. *)
Definition content_split (matches : string -> RawRow -> bool) : Prop :=
  forall (r : RawRow) c,
    r !! "content"%string = Some (VString c) ->
    matches "content != ''"%string r = true \/
    matches "content = ''"%string r = true.

(** The path filter of the delete calls selects the rows of the path. *)
Definition path_filter_exact (matches : string -> RawRow -> bool)
    (filePath : string) : Prop :=
  forall r : RawRow,
    matches (path_equals filePath) r = true <->
    r !! "notepath"%string = Some (VString filePath).

(** A path is indexed by the rows [l] when one of them is a well-formed
    row for the path that one of the two content filters finds. *)
Definition indexed (matches : string -> RawRow -> bool)
    (l : list RawRow) (filePath : string) : Prop :=
  exists r : RawRow,
    r ∈ l /\
    convertRawDBResultToRagnoteDBEntry r = Some r /\
    r !! "notepath"%string = Some (VString filePath) /\
    (matches "content != ''"%string r = true \/
     matches "content = ''"%string r = true).

End Observations.

(** The record that [convertFileTypeToDBType] makes of the [i]-th file of
    a list, when [n] readings of the clock precede the conversion of the
    list. *)
Definition file_entry (clock : nat -> Z)
    (readFileSync : string -> option string) (n i : nat) (f : FileInfo)
    : RagnoteDBEntry :=
  {| notepath := path f; vector := None;
     content := readFile readFileSync (path f);
     subnoteindex := 0; timeadded := clock (n + i) |}.

(** The values of [x.notepath] over a result list without [null]. *)
Definition notepaths (tableArray : list (option RawRow))
    : list (option JSValue) :=
  map (fun x => match x with
                | Some r => r !! "notepath"%string
                | None => None
                end) tableArray.

(** The files of a listing whose path is not among the note paths of the
    table. *)
Definition missing_files (tableArray : list (option RawRow))
    (filesInfoList : list FileInfo) : list FileInfo :=
  List.filter
    (fun fileInfo => negb (set_has (notepaths tableArray) (path fileInfo)))
    filesInfoList.

(** The filter of the query of [isFileInDB]: [notepath = '<path>']. *)
Definition path_is (filePath : string) : string :=
  ("notepath = '" ++ filePath ++ "'")%string.

(** The store decides that filter as equality of the note path. *)
Definition path_query_exact (matches : string -> RawRow -> bool)
    (filePath : string) : Prop :=
  forall r : RawRow,
    matches (path_is filePath) r = true <->
    r !! "notepath"%string = Some (VString filePath).

(** A row holds the four fields of an entry, and a vector. *)
Definition holds_entry (r : RawRow) (e : RagnoteDBEntry) : Prop :=
  r !! "notepath"%string = Some (VString (notepath e)) /\
  r !! "content"%string = Some (VString (content e)) /\
  r !! "subnoteindex"%string = Some (VNumber (subnoteindex e)) /\
  r !! "timeadded"%string = Some (VDate (timeadded e)) /\
  is_Some (r !! "vector"%string).

(** A row of one of the given paths. *)
Definition row_of_paths (filePaths : list string) (r : RawRow) : bool :=
  existsb (fun p => row_of_path p r) filePaths.

(** A list of events made of counts and queries only. *)
Definition is_read (ev : Event) : bool :=
  match ev with
  | TableCountRows _ | TableExecute _ _ => true
  | _ => false
  end.

Definition reads_only (evs : list Event) : Prop :=
  Forall (fun ev => is_read ev = true) evs.

(** A list of events made of write calls only. *)
Definition only_writes (evs : list Event) : Prop :=
  Forall (fun ev => exists chunk r, ev = TableAdd chunk r) evs.

(** ** Runs of the program on the small directory *)
Module Runs.

Abbreviation table0 := MemStore.initialized.
Abbreviation lance0 := (MemStore.lance MemStore.zero_embed).

(** Before [initialize]. *)
Definition fresh : RagnoteTable MemStore.t unit unit := new_RagnoteTable.

Definition empty_store : State MemStore.t := MemStore.state [] [] [].

(** The two notes, already stored. *)
Definition two_notes : list RawRow :=
  [ Scenario.stored "a.md" "alpha" 1000;
    Scenario.stored "b.md" EmptyString 1000 ].

(** 120 records, the second write call of which fails. *)
Definition faulty_add : Outcome MemStore.t unit :=
  RagnoteTable_add table0 (Scenario.batch 120) (observer true)
    (MemStore.state [] [false; true] []).

Definition first_run : Outcome MemStore.t unit :=
  maybeRePopulateTable Scenario.clock Scenario.readFileSync
    Scenario.GetFilesInfoList table0 "notes" [".md"%string]
    (observer true) empty_store.

Definition second_run : Outcome MemStore.t unit :=
  maybeRePopulateTable Scenario.clock Scenario.readFileSync
    Scenario.GetFilesInfoList table0 "notes" [".md"%string]
    (observer true) (final first_run).

(** An update of [a.md] whose write call fails. *)
Definition update_unwritten : Outcome MemStore.t unit :=
  updateNoteInTable Scenario.clock table0 "a.md" "beta"
    (MemStore.state two_notes [true] []).

(** An update of [a.md] within the millisecond of its last write. *)
Definition update_same_instant : Outcome MemStore.t unit :=
  updateNoteInTable Scenario.frozen_clock table0 "a.md" "beta"
    (MemStore.state two_notes [] []).

Definition update_a : Outcome MemStore.t unit :=
  updateNoteInTable Scenario.clock table0 "a.md" "beta"
    (MemStore.state two_notes [] []).

(** Three paths, the delete call of the second of which fails. *)
Definition three_files : list FileInfo :=
  Scenario.files ++ [ {| path := "c.md" |} ].

Definition remove_faulty : Outcome MemStore.t unit :=
  removeTreeFromTable Scenario.flattenFileInfoTree table0 three_files
    (MemStore.state two_notes [] [false; true]).

End Runs.

(** ** More runs *)
Module Cases.

(** A callback that throws. *)
Definition failing_callback (_ : Q) : M MemStore.t unit :=
  throw (Error "callback failed").

(** A row with a content and no vector, as written by another client. *)
Definition unembedded : RawRow :=
  entry_to_record (Scenario.note "c.md" "gamma" 900).

(** A table that holds the first note only. *)
Definition one_note : State MemStore.t :=
  MemStore.state [Scenario.stored "a.md" "alpha" 1000] [] [].

(** A table that holds a row without a vector. *)
Definition unembedded_table : State MemStore.t :=
  MemStore.state [unembedded] [] [].

(** The two notes and a row with a note path only. *)
Definition with_stray : State MemStore.t :=
  MemStore.state (Scenario.malformed :: Runs.two_notes) [] [].

(** The two notes and a third one. *)
Definition three_notes : State MemStore.t :=
  MemStore.state (Runs.two_notes ++ [Scenario.stored "c.md" "gamma" 1000])
    [] [].

Definition both_notes : list RagnoteDBEntry :=
  [ Scenario.note "a.md" "alpha" 1000; Scenario.note "b.md" EmptyString 1001 ].

(** A store that is not available: every call throws. *)
Definition offline : LanceDBTable unit :=
  {| lance_add := fun _ s => (Throw (Error "unavailable"), s);
     lance_delete := fun _ s => (Throw (Error "unavailable"), s);
     lance_execute := fun _ s => (Throw (Error "unavailable"), s);
     lance_countRows := fun s => (Throw (Error "unavailable"), s) |}.

Definition offline_table : RagnoteTable unit unit unit :=
  {| table := Some offline; embedFun := Some tt;
     userDirectory := Some "notes"; dbConnection := Some tt |}.

Definition offline_state : State unit := {| store := tt; dates_read := 0 |}.

Definition repopulate (st : State MemStore.t) : Outcome MemStore.t unit :=
  maybeRePopulateTable Scenario.clock Scenario.readFileSync
    Scenario.GetFilesInfoList Runs.table0 "notes" [".md"%string]
    (observer true) st.

End Cases.

(** * Properties *)


Lemma write_calls_app evs1 evs2 :
  write_calls (evs1 ++ evs2) = write_calls evs1 ++ write_calls evs2.
Proof. apply flat_map_app. Qed.

Lemma progress_calls_app evs1 evs2 :
  progress_calls (evs1 ++ evs2) = progress_calls evs1 ++ progress_calls evs2.
Proof. apply flat_map_app. Qed.

Lemma progress_calls_reports (f : nat -> Q) l :
  progress_calls (map (fun k => OnProgress (f k)) l) = map f l.
Proof. induction l as [|k l IH]; [done|]. cbn. by rewrite <- IH. Qed.

Lemma write_calls_reports (f : nat -> Q) l :
  write_calls (map (fun k => OnProgress (f k)) l) = [].
Proof. induction l as [|k l IH]; [done|]. exact IH. Qed.

(** ** Chunking *)

Section Chunks.
Context {A : Type}.
Implicit Types (l : list A) (chunks : list (list A)).

Lemma chunk_loop_step l i chunks :
  chunk_loop l i chunks =
  if decide (i < length l)
  then chunk_loop l (i + chunkSize) (chunks ++ [slice l i (i + chunkSize)])
  else chunks.
Proof. rewrite chunk_loop_equation_1. destruct (decide _); reflexivity. Qed.

Lemma ceil_div_small n : 0 < n <= chunkSize -> ceil_div n chunkSize = 1.
Proof.
  unfold ceil_div, chunkSize. intros H.
  symmetry. apply (Nat.div_unique _ 50 1 (n - 1)); lia.
Qed.

Lemma ceil_div_step n :
  ceil_div (n + chunkSize) chunkSize = Datatypes.S (ceil_div n chunkSize).
Proof.
  unfold ceil_div, chunkSize.
  replace (n + 50 + 50 - 1) with ((n + 50 - 1) + 1 * 50) by lia.
  rewrite Nat.div_add by lia. lia.
Qed.

Lemma ceil_div_0 : ceil_div 0 chunkSize = 0.
Proof. reflexivity. Qed.

Lemma ceil_div_pos n : 0 < n -> 0 < ceil_div n chunkSize.
Proof.
  unfold ceil_div, chunkSize. intros H.
  apply Nat.div_str_pos. lia.
Qed.

(** The loop pushes the slices at 0, 50, 100, ... *)
Lemma chunk_loop_slices l : forall n i chunks,
  length l - i <= n ->
  chunk_loop l i chunks =
  chunks ++ map (fun k => slice l (i + k * chunkSize) (i + k * chunkSize + chunkSize))
                (seq 0 (ceil_div (length l - i) chunkSize)).
Proof.
  induction n as [|n IH]; intros i chunks Hn; rewrite chunk_loop_step.
  - destruct (decide _); [lia|].
    replace (length l - i) with 0 by lia. rewrite ceil_div_0. cbn.
    by rewrite app_nil_r.
  - destruct (decide (i < length l)) as [Hlt|Hge].
    + rewrite IH by (unfold chunkSize; lia).
      destruct (decide (length l - i <= chunkSize)) as [Hs|Hb].
      * replace (length l - (i + chunkSize)) with 0 by lia.
        rewrite ceil_div_0, ceil_div_small by lia. cbn.
        rewrite Nat.add_0_r. by rewrite app_nil_r.
      * replace (length l - i) with (length l - (i + chunkSize) + chunkSize) by lia.
        rewrite ceil_div_step. cbn [seq map].
        rewrite <- seq_shift, map_map, <- app_assoc. cbn [app].
        rewrite Nat.mul_0_l, Nat.add_0_r.
        do 2 f_equal. apply map_ext. intros k.
        f_equal; unfold chunkSize; lia.
    + replace (length l - i) with 0 by lia. rewrite ceil_div_0. cbn.
      by rewrite app_nil_r.
Qed.

Lemma chunk_loop_concat l : forall n i chunks,
  length l - i <= n ->
  concat (chunk_loop l i chunks) = concat chunks ++ drop i l.
Proof.
  induction n as [|n IH]; intros i chunks Hn; rewrite chunk_loop_step.
  - destruct (decide _); [lia|].
    rewrite drop_ge by lia. by rewrite app_nil_r.
  - destruct (decide (i < length l)) as [Hlt|Hge].
    + rewrite IH by (unfold chunkSize; lia).
      rewrite concat_app. cbn. rewrite app_nil_r, <- app_assoc. f_equal.
      unfold slice. replace (i + chunkSize - i) with chunkSize by lia.
      rewrite <- (take_drop chunkSize (drop i l)) at 2.
      f_equal. rewrite drop_drop. f_equal; lia.
    + rewrite drop_ge by lia. by rewrite app_nil_r.
Qed.

Lemma slice_length l i j : length (slice l i j) = min (j - i) (length l - i).
Proof. unfold slice. rewrite length_take, length_drop. reflexivity. Qed.

Lemma ceil_div_index n k : k < ceil_div n chunkSize -> k * chunkSize < n.
Proof.
  unfold ceil_div, chunkSize. intros H.
  pose proof (Nat.div_mod (n + 50 - 1) 50 ltac:(lia)) as E.
  pose proof (Nat.mod_upper_bound (n + 50 - 1) 50 ltac:(lia)) as B.
  lia.
Qed.

(** What the first loop of [add] leaves in [chunks]. *)
Lemma chunk_loop_all l :
  chunk_loop l 0 [] =
  map (fun k => slice l (k * chunkSize) (k * chunkSize + chunkSize))
      (seq 0 (ceil_div (length l) chunkSize)).
Proof.
  rewrite (chunk_loop_slices l (length l)) by lia.
  rewrite Nat.sub_0_r. reflexivity.
Qed.

Lemma chunk_loop_length l :
  length (chunk_loop l 0 []) = ceil_div (length l) chunkSize.
Proof. by rewrite chunk_loop_all, length_map, length_seq. Qed.

Lemma chunk_loop_lookup l k :
  k < ceil_div (length l) chunkSize ->
  chunk_loop l 0 [] !! k =
  Some (slice l (k * chunkSize) (k * chunkSize + chunkSize)).
Proof.
  intros H. rewrite chunk_loop_all, list_lookup_fmap.
  rewrite lookup_seq_lt by done. reflexivity.
Qed.

Lemma chunk_loop_sizes l :
  Forall (fun chunk => 0 < length chunk <= chunkSize) (chunk_loop l 0 []).
Proof.
  rewrite chunk_loop_all. apply Forall_forall. intros c Hc.
  apply list_elem_of_In, in_map_iff in Hc as (k & <- & Hk).
  apply in_seq in Hk. rewrite slice_length.
  assert (k * chunkSize < length l) by (apply ceil_div_index; lia).
  unfold chunkSize in *. lia.
Qed.

Lemma chunk_loop_partition l : concat (chunk_loop l 0 []) = l.
Proof. by rewrite (chunk_loop_concat l (length l)) by lia. Qed.

Lemma chunk_loop_nil : chunk_loop (@nil A) 0 [] = [].
Proof. by rewrite chunk_loop_step. Qed.

End Chunks.

(** ** Progress fractions *)

Lemma js_div_lt i j total : i < j -> (js_div i total < js_div j total)%Q.
Proof.
  intros H. unfold js_div, Qlt. cbn.
  apply Z.mul_lt_mono_pos_r; lia.
Qed.

Lemma js_div_same n : 0 < n -> (js_div n n == 1)%Q.
Proof.
  intros H. unfold js_div, Qeq. cbn.
  rewrite <- (positive_nat_Z (Pos.of_nat n)), Nat2Pos.id by lia. lia.
Qed.

Lemma fractions_increasing total : forall n a,
  StronglySorted Qlt (map (fun k => js_div k total) (seq a n)).
Proof.
  induction n as [|n IH]; intros a; cbn; constructor; [apply IH|].
  apply Forall_forall. intros q Hq.
  apply list_elem_of_In, in_map_iff in Hq as (k & <- & Hk).
  apply in_seq in Hk. apply js_div_lt. lia.
Qed.

Lemma fractions_last total n :
  0 < n ->
  last (map (fun k => js_div k total) (seq 1 n)) = Some (js_div n total).
Proof.
  intros H. destruct n as [|n]; [lia|].
  rewrite seq_S, map_app. cbn. by rewrite last_snoc.
Qed.

(** ** The batch writer *)

Section BatchWriter.
Context {S Connection EmbeddingFunction : Type}.
Implicit Types (this : RagnoteTable S Connection EmbeddingFunction).
Implicit Types (st : State S) (tbl : LanceDBTable S).


Lemma add_answers_length tbl chunks : forall s,
  length (add_answers tbl chunks s) = length chunks.
Proof. induction chunks as [|c rest IH]; intros s; cbn; [done|]. by rewrite IH. Qed.

Lemma add_loop_run this tbl observed total chunks : forall index st,
  table this = Some tbl ->
  add_loop this (observer observed) total chunks index st =
  {| res := Ok tt;
     final := {| store := add_store tbl chunks (store st);
                 dates_read := dates_read st |};
     events := add_trace observed total index
                 (zip chunks (add_answers tbl chunks (store st))) |}.
Proof.
  induction chunks as [|c rest IH]; intros index st Ht.
  - destruct st. reflexivity.
  - cbn [add_loop add_answers add_store zip zip_with add_trace].
    unfold bind at 1. unfold bind at 1.
    unfold try_catch, bind, this_table, store_call. rewrite Ht. cbn.
    destruct (lance_add tbl c (store st)) as [r s'] eqn:E. cbn.
    destruct r as [[]|e]; cbn.
    + destruct observed; cbn; rewrite IH by done; cbn; reflexivity.
    + destruct observed; cbn; rewrite IH by done; cbn; reflexivity.
Qed.

(** Before [initialize], reading [this.table.add] throws inside the
    [try]: nothing reaches the store, and the loop goes on. *)
Lemma add_loop_uninitialized this observed total chunks : forall index st,
  table this = None ->
  add_loop this (observer observed) total chunks index st =
  {| res := Ok tt;
     final := st;
     events := if observed
               then map (fun k => OnProgress (js_div k total))
                        (seq (Datatypes.S index) (length chunks))
               else [] |}.
Proof.
  induction chunks as [|c rest IH]; intros index st Ht.
  - destruct observed; reflexivity.
  - cbn [add_loop].
    unfold bind at 1. unfold bind at 1.
    unfold try_catch, bind, this_table. rewrite Ht. cbn.
    destruct observed; cbn; rewrite IH by done; cbn; reflexivity.
Qed.

Lemma write_calls_add_trace observed total calls : forall index,
  write_calls (add_trace observed total index calls) = map fst calls.
Proof.
  induction calls as [|[c r] rest IH]; intros index; [done|].
  cbn [add_trace]. change (TableAdd c r :: ?l) with ([TableAdd c r] ++ l).
  rewrite !write_calls_app, IH. by destruct observed.
Qed.

Lemma progress_calls_add_trace total calls : forall index,
  progress_calls (add_trace true total index calls) =
  map (fun k => js_div k total) (seq (Datatypes.S index) (length calls)).
Proof.
  induction calls as [|[c r] rest IH]; intros index; [done|].
  cbn. by rewrite IH.
Qed.

Lemma progress_calls_unobserved total calls : forall index,
  progress_calls (add_trace false total index calls) = [].
Proof.
  induction calls as [|[c r] rest IH]; intros index; [done|].
  cbn. by rewrite IH.
Qed.

Lemma add_trace_call observed total (calls : list (list RawRow * result unit)) :
  forall index chunk r,
    (chunk, r) ∈ calls ->
    TableAdd chunk r ∈ add_trace observed total index calls.
Proof.
  induction calls as [|[c' r'] rest IH]; intros index chunk r Hin.
  - by apply elem_of_nil in Hin.
  - cbn [add_trace]. apply elem_of_cons in Hin as [[= -> ->]|Hin].
    + apply list_elem_of_here.
    + apply list_elem_of_further, elem_of_app. right. by apply IH.
Qed.

Lemma add_nil this (onProgress : option (Q -> M S unit)) st :
  RagnoteTable_add this [] onProgress st =
  {| res := Ok tt; final := st; events := [] |}.
Proof. unfold RagnoteTable_add. cbn [map]. by rewrite chunk_loop_nil. Qed.

Lemma add_run this tbl observed data st :
  table this = Some tbl ->
  let chunks := chunk_loop (map entry_to_record data) 0 [] in
  RagnoteTable_add this data (observer observed) st =
  {| res := Ok tt;
     final := {| store := add_store tbl chunks (store st);
                 dates_read := dates_read st |};
     events := add_trace observed (length chunks) 0
                 (zip chunks (add_answers tbl chunks (store st))) |}.
Proof. intros Ht. unfold RagnoteTable_add. by apply add_loop_run. Qed.

Lemma add_run_writes this tbl observed data st :
  table this = Some tbl ->
  write_calls (events (RagnoteTable_add this data (observer observed) st)) =
  chunk_loop (map entry_to_record data) 0 [].
Proof.
  intros Ht. rewrite (add_run _ tbl) by done. cbn [events].
  rewrite write_calls_add_trace. apply fst_zip.
  by rewrite add_answers_length.
Qed.

Lemma add_run_progress this tbl observed data st :
  table this = Some tbl ->
  progress_calls (events (RagnoteTable_add this data (observer observed) st)) =
  if observed
  then map (fun k => js_div k (ceil_div (length data) chunkSize))
           (seq 1 (ceil_div (length data) chunkSize))
  else [].
Proof.
  intros Ht. rewrite (add_run _ tbl) by done. cbn [events].
  destruct observed.
  - rewrite progress_calls_add_trace, length_zip, add_answers_length.
    rewrite Nat.min_id, chunk_loop_length, length_map. reflexivity.
  - apply progress_calls_unobserved.
Qed.

(** C1: [RagnoteTable.add] on an initialized table cuts its [N] records
    into [ceil(N/50)] contiguous slices of at most 50 records, in input
    order, and hands each of them to the store in exactly one write call;
    a supplied progress callback is invoked [ceil(N/50)] times, with the
    strictly increasing fractions [1/M, 2/M, ..., M/M], the last of which
    is 1, and without a callback nothing is reported; on the empty list
    there is no call at all. *)
Theorem add_chunks_writes_and_progress this tbl data observed st :
  table this = Some tbl ->
  let records := map entry_to_record data in
  let total := ceil_div (length data) chunkSize in
  let evs := events (RagnoteTable_add this data (observer observed) st) in
  let chunks := write_calls evs in
  length chunks = total /\
  concat chunks = records /\
  Forall (fun chunk => 0 < length chunk <= chunkSize) chunks /\
  (forall k, k < total ->
     chunks !! k =
     Some (slice records (k * chunkSize) (k * chunkSize + chunkSize))) /\
  progress_calls evs =
    (if observed then map (fun k => js_div k total) (seq 1 total) else []) /\
  length (progress_calls evs) = (if observed then total else 0) /\
  StronglySorted Qlt (progress_calls evs) /\
  (observed = true -> data <> [] ->
     exists q, last (progress_calls evs) = Some q /\ (q == 1)%Q) /\
  (data = [] -> evs = []).
Proof.
  intros Ht records total evs chunks.
  assert (Hc : chunks = chunk_loop records 0 [])
    by (by apply add_run_writes with tbl).
  assert (Hp : progress_calls evs =
               if observed then map (fun k => js_div k total) (seq 1 total)
               else []) by (by apply add_run_progress with tbl).
  assert (Hlen : length records = length data) by apply length_map.
  rewrite Hc, Hp. repeat split.
  - by rewrite chunk_loop_length, Hlen.
  - apply chunk_loop_partition.
  - apply chunk_loop_sizes.
  - intros k Hk. apply chunk_loop_lookup. by rewrite Hlen.
  - destruct observed; [|done]. by rewrite length_map, length_seq.
  - destruct observed; [apply fractions_increasing | constructor].
  - intros -> Hne. exists (js_div total total).
    assert (0 < total).
    { apply ceil_div_pos. destruct data; [done | cbn; lia]. }
    split; [by apply fractions_last | by apply js_div_same].
  - intros ->. subst evs. rewrite (add_run _ tbl) by done. cbn [events].
    cbn [map]. by rewrite chunk_loop_nil.
Qed.

(** C2: whatever the store answers to the write calls of
    [RagnoteTable.add] on an initialized table, [add] returns normally:
    when the write of chunk [k] throws, the error is caught, every chunk,
    the later ones included, is still handed to the store, in order, and
    the progress callback is still invoked for chunk [k], right after its
    failed write. *)
Theorem add_isolates_chunk_failures this tbl data observed st k e :
  table this = Some tbl ->
  let chunks := chunk_loop (map entry_to_record data) 0 [] in
  let answers := add_answers tbl chunks (store st) in
  let o := RagnoteTable_add this data (observer observed) st in
  answers !! k = Some (Throw e) ->
  res o = Ok tt /\
  write_calls (events o) = chunks /\
  events o = add_trace observed (length chunks) 0 (zip chunks answers) /\
  (forall j, k < j < length chunks ->
     exists chunk r, chunks !! j = Some chunk /\
                     TableAdd chunk r ∈ events o) /\
  (observed = true ->
     progress_calls (events o) !! k =
     Some (js_div (Datatypes.S k) (length chunks))).
Proof.
  intros Ht chunks answers o Hk.
  assert (Ho : o = {| res := Ok tt;
                      final := {| store := add_store tbl chunks (store st);
                                  dates_read := dates_read st |};
                      events := add_trace observed (length chunks) 0
                                  (zip chunks answers) |})
    by (by apply add_run).
  assert (Hw : write_calls (events o) = chunks)
    by (by apply add_run_writes with tbl).
  assert (Hlen : length answers = length chunks)
    by apply add_answers_length.
  repeat split.
  - by rewrite Ho.
  - exact Hw.
  - by rewrite Ho.
  - intros j Hj.
    destruct (lookup_lt_is_Some_2 chunks j) as [c Hcj]; [lia|].
    destruct (lookup_lt_is_Some_2 answers j) as [r Hrj]; [lia|].
    exists c, r. split; [done|].
    rewrite Ho. cbn [events].
    assert (Hz : zip chunks answers !! j = Some (c, r)).
    { rewrite lookup_zip_with, Hcj. cbn. by rewrite Hrj. }
    apply add_trace_call. by apply list_elem_of_lookup_2 in Hz.
  - intros ->. apply lookup_lt_Some in Hk. subst o.
    rewrite (add_run_progress _ tbl) by done.
    rewrite list_lookup_fmap, lookup_seq_lt.
    + cbn [fmap option_fmap option_map Nat.add]. subst chunks.
      by rewrite chunk_loop_length, length_map.
    + rewrite <- (length_map entry_to_record), <- chunk_loop_length.
      fold chunks. lia.
Qed.

End BatchWriter.

(** ** The facade and the single-path operations *)

Section Facade.
Context {S Connection EmbeddingFunction : Type}.
Implicit Types (this : RagnoteTable S Connection EmbeddingFunction).
Implicit Types (st : State S) (tbl : LanceDBTable S).

Lemma bind_ret {A B} (a : A) (k : A -> M S B) st :
  bind (ret a) k st = k a st.
Proof. unfold bind, ret. cbn. by destruct (k a st). Qed.

Lemma bind_throw {A B} (e : JSError) (k : A -> M S B) st :
  bind (throw e) k st = throw e st.
Proof. reflexivity. Qed.

Lemma this_table_initialized this tbl :
  table this = Some tbl -> this_table this = ret tbl.
Proof. unfold this_table. by intros ->. Qed.

Lemma this_table_undefined this :
  table this = None ->
  this_table this = throw (TypeError "Cannot read properties of undefined").
Proof. unfold this_table. by intros ->. Qed.

Lemma store_call_run {A} (f : S -> result A * S) ev st r s' :
  f (store st) = (r, s') ->
  store_call f ev st =
  {| res := r; final := {| store := s'; dates_read := dates_read st |};
     events := [ev r] |}.
Proof. unfold store_call. by intros ->. Qed.

Lemma delete_run this tbl filter st r s' :
  table this = Some tbl ->
  lance_delete tbl filter (store st) = (r, s') ->
  RagnoteTable_delete this filter st =
  {| res := r; final := {| store := s'; dates_read := dates_read st |};
     events := [TableDelete filter r] |}.
Proof.
  intros Ht Hd. unfold RagnoteTable_delete.
  rewrite (this_table_initialized _ tbl), bind_ret by done.
  by apply store_call_run.
Qed.

Lemma countRows_run this tbl st r s' :
  table this = Some tbl ->
  lance_countRows tbl (store st) = (r, s') ->
  RagnoteTable_countRows this st =
  {| res := r; final := {| store := s'; dates_read := dates_read st |};
     events := [TableCountRows r] |}.
Proof.
  intros Ht Hd. unfold RagnoteTable_countRows.
  rewrite (this_table_initialized _ tbl), bind_ret by done.
  by apply store_call_run.
Qed.

Lemma filter_run this tbl filterString limit st r s' :
  table this = Some tbl ->
  lance_execute tbl (filter_query filterString (default 10 limit)) (store st)
    = (r, s') ->
  RagnoteTable_filter this filterString limit st =
  {| res := match r with
            | Ok rawResults =>
                Ok (map convertRawDBResultToRagnoteDBEntry rawResults)
            | Throw e => Throw e
            end;
     final := {| store := s'; dates_read := dates_read st |};
     events := [TableExecute (filter_query filterString (default 10 limit)) r] |}.
Proof.
  intros Ht Hd. unfold RagnoteTable_filter.
  rewrite (this_table_initialized _ tbl), bind_ret by done.
  unfold bind. rewrite (store_call_run _ _ _ _ _ Hd). cbn.
  by destruct r.
Qed.

Lemma search_run this tbl query limit filter st r s' :
  table this = Some tbl ->
  let lanceQuery :=
    match filter with
    | Some f => if String.eqb f EmptyString
                then with_limit limit (lance_search (QText query))
                else with_filter f (with_limit limit (lance_search (QText query)))
    | None => with_limit limit (lance_search (QText query))
    end in
  lance_execute tbl lanceQuery (store st) = (r, s') ->
  RagnoteTable_search this query limit filter st =
  {| res := match r with
            | Ok rawResults =>
                Ok (map convertRawDBResultToRagnoteDBEntry rawResults)
            | Throw e => Throw e
            end;
     final := {| store := s'; dates_read := dates_read st |};
     events := [TableExecute lanceQuery r] |}.
Proof.
  intros Ht lanceQuery Hd. unfold RagnoteTable_search.
  rewrite (this_table_initialized _ tbl), bind_ret by done.
  unfold bind. fold lanceQuery. rewrite (store_call_run _ _ _ _ _ Hd). cbn.
  by destruct r.
Qed.

(** C6, as amended: on a table on which [initialize] has not run,
    [delete], [search], [filter] and [countRows] throw the [TypeError] of
    reading a property of the unset [table] field, without reaching the
    store; there is no dedicated error for the situation.  [add] does not
    fail: the same [TypeError] is raised inside the [try] of each chunk
    and caught there, so [add] returns normally, without any write call,
    after reporting progress for every chunk. *)
Theorem uninitialized_operations this st :
  table this = None ->
  let undefined := TypeError "Cannot read properties of undefined" in
  (forall filter,
     RagnoteTable_delete this filter st =
     {| res := Throw undefined; final := st; events := [] |}) /\
  (forall query limit filter,
     RagnoteTable_search this query limit filter st =
     {| res := Throw undefined; final := st; events := [] |}) /\
  (forall filterString limit,
     RagnoteTable_filter this filterString limit st =
     {| res := Throw undefined; final := st; events := [] |}) /\
  RagnoteTable_countRows this st =
    {| res := Throw undefined; final := st; events := [] |} /\
  (forall data observed,
     let o := RagnoteTable_add this data (observer observed) st in
     res o = Ok tt /\ final o = st /\ write_calls (events o) = [] /\
     length (progress_calls (events o)) =
       if observed then ceil_div (length data) chunkSize else 0).
Proof.
  intros Hu undefined. repeat split.
  - intros filter. unfold RagnoteTable_delete.
    by rewrite this_table_undefined.
  - intros query limit filter. unfold RagnoteTable_search.
    by rewrite this_table_undefined.
  - intros filterString limit. unfold RagnoteTable_filter.
    by rewrite this_table_undefined.
  - unfold RagnoteTable_countRows. by rewrite this_table_undefined.
  - unfold RagnoteTable_add. by rewrite add_loop_uninitialized.
  - unfold RagnoteTable_add. by rewrite add_loop_uninitialized.
  - unfold RagnoteTable_add. rewrite add_loop_uninitialized by done.
    cbn [events]. destruct observed; [|done].
    apply write_calls_reports.
  - unfold RagnoteTable_add. rewrite add_loop_uninitialized by done.
    cbn [events]. destruct observed; [|done].
    rewrite (progress_calls_reports (fun k => js_div k _)).
    by rewrite length_map, length_seq, chunk_loop_length, length_map.
Qed.

(** C7: on an initialized table, [getTableAsArray] first asks the store
    for its row count.  When the count is 0 it returns the empty list and
    issues no query.  Otherwise it issues exactly two filter queries,
    [content != ''] and then [content = ''], each with the count as its
    limit, and returns the rows of the first followed by the rows of the
    second. *)
Theorem getTableAsArray_two_queries this tbl st :
  table this = Some tbl ->
  let o := getTableAsArray this st in
  (forall s1,
     lance_countRows tbl (store st) = (Ok 0, s1) ->
     res o = Ok [] /\ events o = [TableCountRows (Ok 0)]) /\
  (forall totalRows s1 nonEmpty s2 empty s3,
     totalRows <> 0 ->
     let q1 := filter_query "content != ''" totalRows in
     let q2 := filter_query "content = ''" totalRows in
     lance_countRows tbl (store st) = (Ok totalRows, s1) ->
     lance_execute tbl q1 s1 = (Ok nonEmpty, s2) ->
     lance_execute tbl q2 s2 = (Ok empty, s3) ->
     res o = Ok (map convertRawDBResultToRagnoteDBEntry nonEmpty ++
                 map convertRawDBResultToRagnoteDBEntry empty) /\
     events o = [TableCountRows (Ok totalRows);
                 TableExecute q1 (Ok nonEmpty);
                 TableExecute q2 (Ok empty)] /\
     query_calls (events o) = [q1; q2]).
Proof.
  intros Ht o. split.
  - intros s1 Hc. subst o. unfold getTableAsArray, bind.
    rewrite (countRows_run _ _ _ _ _ Ht Hc). by cbn.
  - intros n s1 r1 s2 r2 s3 Hn q1 q2 Hc H1 H2.
    subst o. unfold getTableAsArray, bind.
    rewrite (countRows_run _ _ _ _ _ Ht Hc). cbn.
    destruct (Nat.eqb_spec n 0) as [|_]; [done|].
    rewrite (filter_run _ tbl _ (Some n) _ (Ok r1) s2 Ht) by exact H1. cbn.
    rewrite (filter_run _ tbl _ (Some n) _ (Ok r2) s3 Ht) by exact H2. cbn.
    done.
Qed.

(** C8, as amended: on an initialized table and for a row count other
    than 0, [isFileInDB] issues exactly one filter query, on the note
    path alone, [notepath = '<path>'], with the count as its limit (the
    content of a row plays no part), and returns true exactly when the
    store answers at least one row. *)
Theorem isFileInDB_one_query this tbl filePath tableCount st rawResults s' :
  table this = Some tbl ->
  tableCount <> 0 ->
  let q := filter_query ("notepath = '" ++ filePath ++ "'")%string tableCount in
  lance_execute tbl q (store st) = (Ok rawResults, s') ->
  let o := isFileInDB this filePath tableCount st in
  events o = [TableExecute q (Ok rawResults)] /\
  query_calls (events o) = [q] /\
  (res o = Ok true <-> rawResults <> []) /\
  (res o = Ok false <-> rawResults = []).
Proof.
  intros Ht Hn q Hq o. subst o. unfold isFileInDB.
  destruct (Nat.eqb_spec tableCount 0) as [|_]; [done|].
  unfold bind.
  rewrite (filter_run _ tbl _ (Some tableCount) _ (Ok rawResults) s' Ht)
    by exact Hq.
  cbn. rewrite length_map.
  destruct rawResults; cbn; repeat split; done.
Qed.

(** C9: given the row count 0, [isFileInDB] returns false and issues no
    call against the store. *)
Theorem isFileInDB_empty_table this filePath st :
  isFileInDB this filePath 0 st =
  {| res := Ok false; final := st; events := [] |}.
Proof. reflexivity. Qed.

End Facade.

Section RemoveTree.
Context {S Connection EmbeddingFunction FileInfoTree : Type}.
Variable flattenFileInfoTree : FileInfoTree -> list FileInfo.
Implicit Types (this : RagnoteTable S Connection EmbeddingFunction).
Implicit Types (st : State S) (tbl : LanceDBTable S).

Lemma remove_loop_outcome this tbl filePaths : forall st,
  table this = Some tbl ->
  let o := remove_loop this filePaths st in
  let deleted p := TableDelete (path_equals p) (Ok tt) in
  (res o = Ok tt -> events o = map deleted filePaths) /\
  (forall e, res o = Throw e ->
     exists done failed rest,
       filePaths = done ++ failed :: rest /\
       events o = map deleted done ++
                  [TableDelete (path_equals failed) (Throw e)]).
Proof.
  induction filePaths as [|p ps IH]; intros st Ht; cbn zeta.
  - split; [done|]. intros e He. discriminate He.
  - cbn [remove_loop]. unfold bind.
    destruct (lance_delete tbl (path_equals p) (store st)) as [r s'] eqn:Hd.
    change (DatabaseFields.NOTE_PATH ++ " = " ++ dq ++ p ++ dq)%string
      with (path_equals p).
    rewrite (delete_run _ _ _ _ _ _ Ht Hd). cbn.
    destruct r as [[]|e'].
    + specialize (IH {| store := s'; dates_read := dates_read st |} Ht).
      cbn zeta in IH. destruct IH as [IHok IHthrow]. split.
      * intros Hr. cbn. by rewrite IHok.
      * intros e Hr. destruct (IHthrow e Hr) as (d & f & rest & -> & Hev).
        exists (p :: d), f, rest. split; [done|]. cbn. by rewrite Hev.
    + split; [intros Hr; discriminate Hr|].
      intros e Hr. injection Hr as ->.
      by exists [], p, ps.
Qed.

(** C10: [removeTreeFromTable] on an initialized table deletes path by
    path, in the order of the flattened tree, and handles no error.  If
    it returns normally, every delete call was answered without error.
    If the delete call for some path throws, that error is the outcome of
    [removeTreeFromTable], and no delete call is issued for the paths
    after it. *)
Theorem removeTree_stops_at_first_failure this tbl fileTree st :
  table this = Some tbl ->
  let filePaths := map path (flattenFileInfoTree fileTree) in
  let o := removeTreeFromTable flattenFileInfoTree this fileTree st in
  let deleted p := TableDelete (path_equals p) (Ok tt) in
  (res o = Ok tt -> events o = map deleted filePaths) /\
  (forall e, res o = Throw e ->
     exists done failed rest,
       filePaths = done ++ failed :: rest /\
       events o = map deleted done ++
                  [TableDelete (path_equals failed) (Throw e)] /\
       delete_calls (events o) = map path_equals (done ++ [failed])).
Proof.
  intros Ht filePaths o deleted.
  destruct (remove_loop_outcome this tbl filePaths st Ht) as [Hok Hthrow].
  split; [exact Hok|].
  intros e He. destruct (Hthrow e He) as (d & f & rest & Hp & Hev).
  exists d, f, rest. repeat split; [done..|].
  unfold o, removeTreeFromTable. fold filePaths. rewrite Hev.
  clear. induction d as [|p d IH]; [done|]. cbn. by rewrite <- IH.
Qed.

End RemoveTree.

(** ** Sequencing *)

Section Sequencing.
Context {S : Type}.
Implicit Types (st : State S).

Lemma bind_res {A B} (m : M S A) (k : A -> M S B) st :
  res (bind m k st) =
  match res (m st) with
  | Ok a => res (k a (final (m st)))
  | Throw e => Throw e
  end.
Proof. unfold bind. by destruct (res (m st)). Qed.

Lemma bind_events {A B} (m : M S A) (k : A -> M S B) st :
  events (bind m k st) =
  events (m st) ++
  match res (m st) with
  | Ok a => events (k a (final (m st)))
  | Throw e => []
  end.
Proof. unfold bind. destruct (res (m st)); cbn; [done|]. by rewrite app_nil_r. Qed.

Lemma bind_final {A B} (m : M S A) (k : A -> M S B) st :
  final (bind m k st) =
  match res (m st) with
  | Ok a => final (k a (final (m st)))
  | Throw e => final (m st)
  end.
Proof. unfold bind. by destruct (res (m st)). Qed.

Lemma bind_ok_inv {A B} (m : M S A) (k : A -> M S B) st b :
  res (bind m k st) = Ok b ->
  exists a,
    res (m st) = Ok a /\
    res (k a (final (m st))) = Ok b /\
    final (bind m k st) = final (k a (final (m st))) /\
    events (bind m k st) = events (m st) ++ events (k a (final (m st))).
Proof.
  rewrite bind_res, bind_final, bind_events.
  destruct (res (m st)) as [a|e]; [|done].
  intros H. by exists a.
Qed.

End Sequencing.

(** ** Rows *)

Lemma entry_to_record_lookup (e : RagnoteDBEntry) :
  entry_to_record e !! "notepath"%string = Some (VString (notepath e)) /\
  entry_to_record e !! "content"%string = Some (VString (content e)) /\
  entry_to_record e !! "subnoteindex"%string = Some (VNumber (subnoteindex e)) /\
  entry_to_record e !! "timeadded"%string = Some (VDate (timeadded e)).
Proof.
  unfold entry_to_record. destruct (vector e); repeat split;
    repeat (rewrite lookup_insert_ne by done); by rewrite lookup_insert_eq.
Qed.

Lemma convert_some (r : RawRow) :
  is_Some (r !! "notepath"%string) -> is_Some (r !! "vector"%string) ->
  is_Some (r !! "content"%string) -> is_Some (r !! "subnoteindex"%string) ->
  is_Some (r !! "timeadded"%string) ->
  convertRawDBResultToRagnoteDBEntry r = Some r.
Proof.
  intros [? H1] [? H2] [? H3] [? H4] [? H5].
  unfold convertRawDBResultToRagnoteDBEntry, has_key, DatabaseFields.NOTE_PATH,
    DatabaseFields.VECTOR, DatabaseFields.CONTENT,
    DatabaseFields.SUB_NOTE_INDEX, DatabaseFields.TIME_ADDED.
  by rewrite H1, H2, H3, H4, H5.
Qed.

Lemma convert_inv (r r' : RawRow) :
  convertRawDBResultToRagnoteDBEntry r = Some r' -> r' = r.
Proof.
  unfold convertRawDBResultToRagnoteDBEntry.
  destruct (_ && _); [|done]. by intros [= ->].
Qed.

(** A stored entry is a well-formed row with the entry's fields. *)
Lemma kept_entry (e : RagnoteDBEntry) (kept : RawRow) :
  kept_as (entry_to_record e) kept ->
  convertRawDBResultToRagnoteDBEntry kept = Some kept /\
  kept !! "notepath"%string = Some (VString (notepath e)) /\
  kept !! "content"%string = Some (VString (content e)) /\
  kept !! "subnoteindex"%string = Some (VNumber (subnoteindex e)) /\
  kept !! "timeadded"%string = Some (VDate (timeadded e)).
Proof.
  intros [Hk Hv].
  destruct (entry_to_record_lookup e) as (H1 & H2 & H3 & H4).
  rewrite <- (Hk "notepath"%string) in H1 by done.
  rewrite <- (Hk "content"%string) in H2 by done.
  rewrite <- (Hk "subnoteindex"%string) in H3 by done.
  rewrite <- (Hk "timeadded"%string) in H4 by done.
  repeat split; [|done..].
  apply convert_some; by eauto.
Qed.

Lemma set_has_spec (s : list (option JSValue)) p :
  set_has s p = true <-> Some (VString p) ∈ s.
Proof.
  unfold set_has. rewrite existsb_exists. split.
  - intros (v & Hin & Hv). apply list_elem_of_In in Hin.
    destruct v as [[q| | |]|]; try done.
    apply String.eqb_eq in Hv. by subst.
  - intros Hin. exists (Some (VString p)). split.
    + by apply list_elem_of_In.
    + apply String.eqb_refl.
Qed.

(** ** Reconciliation *)

Section Reconciliation.
Context {S Connection EmbeddingFunction : Type}.
Variable clock : nat -> Z.
Variable readFileSync : string -> option string.
Variable GetFilesInfoList : string -> list string -> list FileInfo.
Implicit Types (this : RagnoteTable S Connection EmbeddingFunction).
Implicit Types (st : State S) (tbl : LanceDBTable S).

(** *** Calls that write nothing *)

Lemma countRows_no_writes this st :
  write_calls (events (RagnoteTable_countRows this st)) = [].
Proof.
  unfold RagnoteTable_countRows, this_table.
  destruct (table this) as [tbl|]; [|done].
  rewrite bind_ret. unfold store_call. by destruct (lance_countRows _ _).
Qed.

Lemma filter_no_writes this filterString limit st :
  write_calls (events (RagnoteTable_filter this filterString limit st)) = [].
Proof.
  unfold RagnoteTable_filter, this_table.
  destruct (table this) as [tbl|]; [|done].
  rewrite bind_ret, bind_events. unfold store_call.
  destruct (lance_execute _ _ _) as [[rs|e] s']; done.
Qed.

Lemma getTableAsArray_no_writes this st :
  write_calls (events (getTableAsArray this st)) = [].
Proof.
  unfold getTableAsArray.
  rewrite bind_events, write_calls_app, countRows_no_writes.
  destruct (res (RagnoteTable_countRows this st)) as [n|e]; [|done].
  destruct (n =? 0); [done|].
  rewrite bind_events, write_calls_app, filter_no_writes.
  destruct (res (RagnoteTable_filter _ _ _ _)) as [r1|e]; [|done].
  rewrite bind_events, write_calls_app, filter_no_writes.
  by destruct (res (RagnoteTable_filter _ _ _ _)).
Qed.

Lemma get_notepaths_run (tableArray : list (option RawRow)) st :
  events (mapM get_notepath tableArray st) = [] /\
  final (mapM get_notepath tableArray st) = st /\
  forall paths,
    res (mapM get_notepath tableArray st) = Ok paths ->
    Forall2 (fun x v => exists r : RawRow,
               x = Some r /\ v = r !! "notepath"%string)
            tableArray paths.
Proof.
  induction tableArray as [|x rest (IHe & IHf & IHr)]; cbn [mapM].
  - repeat split. intros paths [= <-]. constructor.
  - rewrite bind_events, bind_final, bind_res.
    destruct x as [r|]; cbn; [|by repeat split].
    rewrite bind_events, bind_final, bind_res, IHe, IHf.
    destruct (res (mapM get_notepath rest st)) as [vs|e] eqn:Hr; cbn.
    + repeat split. intros paths [= <-]. constructor; [by exists r|].
      by apply IHr.
    + by repeat split.
Qed.

Lemma convert_file_run (f : FileInfo) st :
  convertFileTypeToDBType clock readFileSync f st =
  {| res := Ok {| notepath := path f; vector := None;
                  content := readFile readFileSync (path f);
                  subnoteindex := 0;
                  timeadded := clock (dates_read st) |};
     final := {| store := store st;
                 dates_read := Datatypes.S (dates_read st) |};
     events := [] |}.
Proof. reflexivity. Qed.

Lemma convert_files_run (files : list FileInfo) : forall st,
  exists entries,
    res (mapM (convertFileTypeToDBType clock readFileSync) files st) =
      Ok entries /\
    final (mapM (convertFileTypeToDBType clock readFileSync) files st) =
      {| store := store st; dates_read := dates_read st + length files |} /\
    events (mapM (convertFileTypeToDBType clock readFileSync) files st) = [] /\
    map notepath entries = map path files.
Proof.
  induction files as [|f rest IH]; intros st; cbn [mapM].
  - exists []. repeat split. cbn. rewrite Nat.add_0_r. by destruct st.
  - destruct (IH {| store := store st;
                    dates_read := Datatypes.S (dates_read st) |})
      as (entries & Hres & Hfin & Hev & Hpaths).
    eexists (_ :: entries).
    rewrite bind_res, bind_final, bind_events, convert_file_run.
    cbn [res final events].
    rewrite bind_res, bind_final, bind_events, Hres, Hfin, Hev.
    cbn. repeat split; [|by rewrite Hpaths].
    do 2 f_equal. lia.
Qed.

(** *** A store that keeps what it is given *)

Variable tbl : LanceDBTable S.
Variable rows_of : S -> list RawRow.
Variable matches : string -> RawRow -> bool.
Hypothesis laws : StoreLaws tbl rows_of matches.
Hypothesis split : content_split matches.

Lemma getTableAsArray_lawful this st tableArray :
  table this = Some tbl ->
  res (getTableAsArray this st) = Ok tableArray ->
  final (getTableAsArray this st) = st /\
  (forall r : RawRow, Some r ∈ tableArray ->
     r ∈ rows_of (store st) /\
     convertRawDBResultToRagnoteDBEntry r = Some r /\
     (matches "content != ''"%string r = true \/
      matches "content = ''"%string r = true)) /\
  (forall r : RawRow, r ∈ rows_of (store st) ->
     matches "content != ''"%string r = true \/
     matches "content = ''"%string r = true ->
     convertRawDBResultToRagnoteDBEntry r ∈ tableArray).
Proof.
  intros Ht. unfold getTableAsArray.
  destruct (lance_countRows tbl (store st)) as [rc s1] eqn:Hc.
  unfold bind. rewrite (countRows_run _ _ _ _ _ Ht Hc). cbn.
  destruct rc as [n|e]; [|done].
  destruct (law_count _ _ _ laws _ _ _ Hc) as [-> ->].
  destruct (Nat.eqb_spec (length (rows_of (store st))) 0) as [Hz|Hnz]; cbn.
  - intros [= <-]. split; [by destruct st|]. split.
    + intros r Hr. by apply elem_of_nil in Hr.
    + intros r Hr. destruct (rows_of (store st)); [|done].
      by apply elem_of_nil in Hr.
  - set (n := length (rows_of (store st))) in *.
    destruct (lance_execute tbl (filter_query "content != ''" n) (store st))
      as [r1 s2] eqn:H1.
    rewrite (filter_run _ tbl _ (Some n) _ r1 s2 Ht) by exact H1. cbn.
    destruct r1 as [rs1|e]; [|done].
    destruct (law_execute _ _ _ laws _ _ _ _ _ H1) as (-> & Hs1 & Hc1).
    destruct (lance_execute tbl (filter_query "content = ''" n) (store st))
      as [r2 s3] eqn:H2.
    rewrite (filter_run _ tbl _ (Some n) _ r2 s3 Ht) by exact H2. cbn.
    destruct r2 as [rs2|e]; [|done].
    destruct (law_execute _ _ _ laws _ _ _ _ _ H2) as (-> & Hs2 & Hc2).
    intros [= <-]. split; [by destruct st|]. split.
    + intros r Hr. apply elem_of_app in Hr.
      destruct Hr as [Hr|Hr];
        apply list_elem_of_fmap in Hr as (r0 & Hconv & Hin);
        symmetry in Hconv; pose proof (convert_inv _ _ Hconv) as ->.
      * destruct (Hs1 r0 Hin). by eauto.
      * destruct (Hs2 r0 Hin). by eauto.
    + intros r Hr [Hm|Hm]; apply elem_of_app; [left|right];
        apply list_elem_of_fmap; exists r; split; try done.
      * apply Hc1; [lia|done..].
      * apply Hc2; [lia|done..].
Qed.

(** Writes that all succeed append the given rows. *)
Lemma add_store_all_ok (chunks : list (list RawRow)) : forall s,
  Forall (fun r => r = Ok tt) (add_answers tbl chunks s) ->
  exists stored,
    rows_of (add_store tbl chunks s) = rows_of s ++ stored /\
    Forall2 kept_as (concat chunks) stored.
Proof.
  induction chunks as [|c rest IH]; intros s Hok; cbn in *.
  - exists []. by rewrite app_nil_r.
  - apply Forall_cons in Hok as [Hc Hrest].
    destruct (lance_add tbl c s) as [r s'] eqn:Ha. cbn in *. subst r.
    destruct (law_add _ _ _ laws _ _ _ Ha) as (stored1 & Hrows1 & Hk1).
    destruct (IH s' Hrest) as (stored2 & Hrows2 & Hk2).
    exists (stored1 ++ stored2). split.
    + by rewrite Hrows2, Hrows1, app_assoc.
    + by apply Forall2_app.
Qed.

Lemma filter_none {A} (f : A -> bool) (l : list A) :
  (forall x, x ∈ l -> f x = false) -> List.filter f l = [].
Proof.
  induction l as [|x l IH]; intros H; [done|]. cbn.
  rewrite (H x) by apply list_elem_of_here.
  apply IH. intros y Hy. apply H. by apply list_elem_of_further.
Qed.

Lemma observer_call_run observed (q : Q) st :
  match observer observed with
  | Some cb => cb q
  | None => ret tt
  end st =
  {| res := Ok tt; final := st;
     events := if observed then [OnProgress q] else [] |}.
Proof. by destruct observed. Qed.

(** After a run that returned and whose writes all succeeded, every
    listed file is indexed. *)
Lemma repopulate_first_run this directoryPath extensions observed st :
  table this = Some tbl ->
  let o := maybeRePopulateTable clock readFileSync GetFilesInfoList this
             directoryPath extensions (observer observed) st in
  res o = Ok tt ->
  writes_succeeded (events o) = true ->
  forall f, f ∈ GetFilesInfoList directoryPath extensions ->
    indexed matches (rows_of (store (final o))) (path f).
Proof.
  intros Ht o Hres Hws.
  assert (Hadds : forall chunk r, TableAdd chunk r ∈ events o -> r = Ok tt).
  { intros chunk r Hin. apply list_elem_of_In in Hin.
    unfold writes_succeeded in Hws. rewrite forallb_forall in Hws.
    specialize (Hws _ Hin). cbn in Hws. by destruct r as [[]|]. }
  clear Hws. subst o. unfold maybeRePopulateTable in *.
  destruct (bind_ok_inv _ _ _ _ Hres) as (arr & Harr & Hres1 & -> & Hev).
  rewrite Hev in Hadds. clear Hres Hev.
  destruct (getTableAsArray_lawful this st arr Ht Harr)
    as (Hst & Hsound & _).
  rewrite Hst in *.
  destruct (get_notepaths_run arr st) as (He & Hf & Hr).
  destruct (bind_ok_inv _ _ _ _ Hres1) as (paths & Hpaths & Hres2 & -> & Hev).
  rewrite Hev, He, Hf in *. clear Hres1 Hev. specialize (Hr paths Hpaths).
  set (missing := List.filter
         (fun fileInfo => negb (set_has paths (path fileInfo)))
         (GetFilesInfoList directoryPath extensions)) in *.
  destruct (convert_files_run missing st)
    as (entries & Hres_c & Hfin_c & Hev_c & Hnp).
  destruct (bind_ok_inv _ _ _ _ Hres2) as (entries' & He' & Hres3 & -> & Hev).
  rewrite Hev, Hev_c, Hfin_c in *. clear Hres2 Hev.
  rewrite Hres_c in He'. injection He' as <-.
  set (st1 := {| store := store st;
                 dates_read := dates_read st + length missing |}) in *.
  pose proof (add_run this tbl observed entries st1 Ht) as Hadd.
  cbn zeta in Hadd.
  set (chunks := chunk_loop (map entry_to_record entries) 0 []) in *.
  destruct (bind_ok_inv _ _ _ _ Hres3) as ([] & _ & Hres4 & -> & Hev).
  rewrite Hev, Hadd in *. cbn [res final events] in *. clear Hres3 Hev.
  destruct (bind_ok_inv _ _ _ _ Hres4) as ([] & _ & Hres5 & -> & _).
  rewrite observer_call_run in *. cbn [res final events] in *. clear Hres4.
  destruct (bind_ok_inv _ _ _ _ Hres5) as (n & Hn & _ & -> & _).
  cbn [ret final]. clear Hres5.
  set (st2 := {| store := add_store tbl chunks (store st1);
                 dates_read := dates_read st1 |}) in *.
  destruct (lance_countRows tbl (store st2)) as [rc s3] eqn:Hc.
  rewrite (countRows_run _ _ _ _ _ Ht Hc) in *. cbn [res final store] in *.
  subst rc. destruct (law_count _ _ _ laws _ _ _ Hc) as [-> _].
  cbn [store st2 st1] in *.
  (* all writes succeeded *)
  assert (Hok : Forall (fun r => r = Ok tt)
                  (add_answers tbl chunks (store st))).
  { apply Forall_forall. intros r Hin.
    apply list_elem_of_lookup in Hin as [j Hj].
    destruct (lookup_lt_is_Some_2 chunks j) as [c Hcj].
    { rewrite <- (add_answers_length tbl chunks (store st)).
      by apply lookup_lt_Some in Hj. }
    apply (Hadds c). rewrite !elem_of_app. right. right. right. left.
    apply add_trace_call. apply list_elem_of_lookup. exists j.
    rewrite lookup_zip_with, Hcj. cbn. by rewrite Hj. }
  destruct (add_store_all_ok chunks (store st) Hok)
    as (stored & Hrows & Hkept).
  unfold chunks in Hkept. rewrite chunk_loop_partition in Hkept.
  rewrite Hrows.
  intros f Hf_in.
  destruct (set_has paths (path f)) eqn:Hhas.
  - (* the table had a row for the path *)
    apply set_has_spec, list_elem_of_lookup in Hhas as [j Hj].
    destruct (Forall2_lookup_r _ _ _ _ _ Hr Hj) as (x & Hx & r & -> & Hv).
    apply list_elem_of_lookup_2 in Hx.
    destruct (Hsound r Hx) as (Hin & Hconv & Hm).
    exists r. rewrite elem_of_app. by eauto.
  - (* the file was missing and has been written *)
    assert (Hmiss : f ∈ missing).
    { apply list_elem_of_In, filter_In. split.
      - by apply list_elem_of_In.
      - by rewrite Hhas. }
    apply list_elem_of_lookup in Hmiss as [j Hj].
    assert (Hpj : map path missing !! j = Some (path f))
      by (by rewrite list_lookup_fmap, Hj).
    rewrite <- Hnp, list_lookup_fmap in Hpj.
    destruct (entries !! j) as [e|] eqn:Hej; [|done].
    injection Hpj as Hpe.
    assert (Hrj : map entry_to_record entries !! j = Some (entry_to_record e))
      by (by rewrite list_lookup_fmap, Hej).
    destruct (Forall2_lookup_l _ _ _ _ _ Hkept Hrj) as (kept & Hkj & Hk).
    destruct (kept_entry e kept Hk) as (Hconv & Hp & Hcnt & _).
    exists kept. rewrite elem_of_app. repeat split.
    + right. by apply list_elem_of_lookup_2 in Hkj.
    + done.
    + by rewrite Hp, Hpe.
    + by apply (split kept (content e)).
Qed.

(** On a table in which every listed file is indexed, a run writes
    nothing. *)
Lemma repopulate_nothing_missing this directoryPath extensions observed st :
  table this = Some tbl ->
  (forall f, f ∈ GetFilesInfoList directoryPath extensions ->
     indexed matches (rows_of (store st)) (path f)) ->
  write_calls
    (events (maybeRePopulateTable clock readFileSync GetFilesInfoList this
               directoryPath extensions (observer observed) st)) = [].
Proof.
  intros Ht Hidx. unfold maybeRePopulateTable.
  rewrite bind_events, write_calls_app, getTableAsArray_no_writes.
  cbn [app].
  destruct (res (getTableAsArray this st)) as [arr|e] eqn:Harr; [|done].
  destruct (getTableAsArray_lawful this st arr Ht Harr)
    as (-> & _ & Hcomplete).
  destruct (get_notepaths_run arr st) as (He & Hfin & Hr).
  rewrite bind_events, He, Hfin. cbn [app].
  destruct (res (mapM get_notepath arr st)) as [paths|e] eqn:Hp; [|done].
  specialize (Hr paths eq_refl).
  rewrite filter_none.
  - cbn [mapM]. rewrite bind_ret, bind_events, add_nil. cbn [res final events app].
    rewrite bind_events, observer_call_run. cbn [res final events].
    rewrite write_calls_app.
    rewrite bind_events, write_calls_app, countRows_no_writes.
    destruct observed; cbn; by destruct (res (RagnoteTable_countRows this st)).
  - intros f Hf. destruct (Hidx f Hf) as (r & Hin & Hconv & Hpath & Hm).
    specialize (Hcomplete r Hin Hm). rewrite Hconv in Hcomplete.
    apply list_elem_of_lookup in Hcomplete as [j Hj].
    destruct (Forall2_lookup_l _ _ _ _ _ Hr Hj) as (v & Hvj & r' & [= <-] & ->).
    apply negb_false_iff, set_has_spec.
    rewrite <- Hpath. by apply list_elem_of_lookup_2 in Hvj.
Qed.

(** C4: run [maybeRePopulateTable] on an initialized table over a store
    that keeps what it is given, let it return with every write call
    answered without error, and run it again on the same directory, with
    the same files: the second run issues no write call. *)
Theorem repopulate_twice_writes_nothing this directoryPath extensions
    observed1 observed2 st :
  table this = Some tbl ->
  let first := maybeRePopulateTable clock readFileSync GetFilesInfoList
                 this directoryPath extensions (observer observed1) st in
  res first = Ok tt ->
  writes_succeeded (events first) = true ->
  let second := maybeRePopulateTable clock readFileSync GetFilesInfoList
                  this directoryPath extensions (observer observed2)
                  (final first) in
  write_calls (events second) = [].
Proof.
  intros Ht first Hres Hadds second.
  apply repopulate_nothing_missing; [done|].
  by apply repopulate_first_run.
Qed.

End Reconciliation.

(** ** Point update *)

Section PointUpdate.
Context {S Connection EmbeddingFunction : Type}.
Variable clock : nat -> Z.
Variable tbl : LanceDBTable S.
Variable rows_of : S -> list RawRow.
Variable matches : string -> RawRow -> bool.
Hypothesis laws : StoreLaws tbl rows_of matches.
Implicit Types (this : RagnoteTable S Connection EmbeddingFunction).
Implicit Types (st : State S).

Lemma single_chunk (r : RawRow) : chunk_loop [r] 0 [] = [[r]].
Proof. by rewrite chunk_loop_all. Qed.

Lemma rows_for_deleted filePath (l : list RawRow) :
  path_filter_exact matches filePath ->
  rows_for filePath
    (List.filter (fun r => negb (matches (path_equals filePath) r)) l) = [].
Proof.
  intros Hexact. unfold rows_for. apply filter_none.
  intros r Hr. apply list_elem_of_In, filter_In in Hr as [_ Hr].
  apply negb_true_iff in Hr. unfold row_of_path.
  destruct (r !! "notepath"%string) as [[q| | |]|] eqn:Hq; try done.
  destruct (String.eqb_spec q filePath) as [->|]; [|done].
  apply Hexact in Hq. congruence.
Qed.

(** C5, as amended: [updateNoteInTable] on an initialized table issues
    one delete call, for [notepath = "<path>"]; if that call throws, so
    does the update, and nothing is written.  Otherwise it reads the
    clock and issues exactly one write call, of the single record made of
    the path, the content, the sub-note index 0 and that reading, and
    returns normally whatever the store answers.  When the store keeps
    what it is given, decides the filter as equality with the path, and
    answers both calls without error, exactly one row of the path is left
    in the table: it holds the given content, the index 0 and the reading
    of the clock as its timestamp, which is therefore later than the
    timestamp of each prior row stamped before that reading. *)
Theorem updateNoteInTable_replaces this filePath content st :
  table this = Some tbl ->
  path_filter_exact matches filePath ->
  let o := updateNoteInTable clock this filePath content st in
  let now := clock (dates_read st) in
  let record :=
    entry_to_record {| notepath := filePath; vector := None;
                       content := content; subnoteindex := 0;
                       timeadded := now |} in
  (forall e s1,
     lance_delete tbl (path_equals filePath) (store st) = (Throw e, s1) ->
     res o = Throw e /\
     events o = [TableDelete (path_equals filePath) (Throw e)]) /\
  (forall s1 r s2,
     lance_delete tbl (path_equals filePath) (store st) = (Ok tt, s1) ->
     lance_add tbl [record] s1 = (r, s2) ->
     res o = Ok tt /\
     events o = [TableDelete (path_equals filePath) (Ok tt);
                 TableAdd [record] r] /\
     (r = Ok tt ->
      exists kept : RawRow,
        rows_for filePath (rows_of (store (final o))) = [kept] /\
        convertRawDBResultToRagnoteDBEntry kept = Some kept /\
        kept !! "content"%string = Some (VString content) /\
        kept !! "subnoteindex"%string = Some (VNumber 0) /\
        kept !! "timeadded"%string = Some (VDate now) /\
        (forall (prior : RawRow) t,
           prior ∈ rows_for filePath (rows_of (store st)) ->
           prior !! "timeadded"%string = Some (VDate t) ->
           (t < now)%Z ->
           exists t', kept !! "timeadded"%string = Some (VDate t') /\
                      (t < t')%Z))).
Proof.
  intros Ht Hexact o now record. subst o. unfold updateNoteInTable.
  change (DatabaseFields.NOTE_PATH ++ " = " ++ dq ++ filePath ++ dq)%string
    with (path_equals filePath).
  split.
  - intros e s1 Hd.
    rewrite bind_res, bind_events, (delete_run _ _ _ _ _ _ Ht Hd). by cbn.
  - intros s1 r s2 Hd Ha.
    rewrite bind_res, bind_events, bind_final.
    rewrite (delete_run _ _ _ _ _ _ Ht Hd). cbn [res final events].
    rewrite bind_res, bind_events, bind_final. cbn [new_Date res final events].
    change (RagnoteTable_add this ?d None) with
      (RagnoteTable_add this d (observer false)).
    rewrite (add_run _ tbl) by done. cbn [res final events store dates_read map].
    fold now. fold record. rewrite single_chunk. cbn [add_answers add_store].
    rewrite Ha. cbn. repeat split.
    intros ->.
    destruct (law_add _ _ _ laws _ _ _ Ha) as (stored & Hrows & Hkept).
    apply Forall2_cons_inv_l in Hkept as (kept & rest & Hk & Hnil & ->).
    apply Forall2_nil_inv_l in Hnil as ->.
    destruct (kept_entry _ _ Hk) as (Hconv & Hp & Hc & Hi & Hts).
    cbn in Hp, Hc, Hi, Hts.
    exists kept. repeat split; try done.
    + rewrite Hrows, (law_delete _ _ _ laws _ _ _ Hd).
      unfold rows_for at 1. rewrite List.filter_app.
      fold (rows_for filePath
              (List.filter (fun r => negb (matches (path_equals filePath) r))
                           (rows_of (store st)))).
      rewrite rows_for_deleted by done. cbn.
      unfold row_of_path. rewrite Hp. by rewrite String.eqb_refl.
    + intros prior t _ _ Hlt. by exists now.
Qed.

End PointUpdate.

(** ** The in-memory store keeps what it is given *)

Section MemStoreLaws.
Variable embed : string -> list Z.

Lemma embed_row_kept (r : RawRow) : kept_as r (MemStore.embed_row embed r).
Proof.
  unfold kept_as, MemStore.embed_row.
  destruct (r !! "content"%string) as [[c| | |]|]; split;
    try (intros k Hk; by rewrite lookup_insert_ne);
    by rewrite lookup_insert_eq.
Qed.

Lemma memstore_laws :
  StoreLaws (MemStore.lance embed) MemStore.rows MemStore.matches.
Proof.
  split.
  - intros s n s' [= <- <-]. done.
  - intros f limit s rs s'. cbn. unfold MemStore.execute, MemStore.matches.
    cbn. destruct (MemStore.parse_filter f) as [p|]; [|done].
    intros [= <- <-]. split; [done|]. split.
    + intros r Hr. apply (subseteq_take limit) in Hr.
      by apply list_elem_of_In, filter_In in Hr as [?%list_elem_of_In ?].
    + intros Hlen r Hin Hm. rewrite take_ge.
      * apply list_elem_of_In, filter_In. split; [|done].
        by apply list_elem_of_In.
      * etrans; [apply List.filter_length_le|done].
  - intros chunk s s'. cbn. unfold MemStore.add.
    destruct (MemStore.add_faults s) as [|[] faults]; [|done|];
      intros [= <-]; cbn; exists (map (MemStore.embed_row embed) chunk);
      (split; [done|]);
      induction chunk; constructor; auto using embed_row_kept.
  - intros f s s'. cbn. unfold MemStore.delete, MemStore.matches.
    destruct (MemStore.delete_faults s) as [|[] faults]; [|done|];
      destruct (MemStore.parse_filter f) as [p|]; try done;
      by intros [= <-].
Qed.

Lemma memstore_content_split : content_split MemStore.matches.
Proof.
  intros r c Hc. unfold MemStore.matches.
  change (MemStore.parse_filter "content != ''")
    with (Some ("content"%string, true, EmptyString)).
  change (MemStore.parse_filter "content = ''")
    with (Some ("content"%string, false, EmptyString)).
  cbn. rewrite Hc. destruct (String.eqb c EmptyString); auto.
Qed.

Lemma memstore_path_a : path_filter_exact MemStore.matches "a.md".
Proof.
  intros r. unfold MemStore.matches.
  change (MemStore.parse_filter (path_equals "a.md"))
    with (Some ("notepath"%string, false, "a.md"%string)).
  cbn. destruct (r !! "notepath"%string) as [[q| | |]|]; try done.
  destruct (String.eqb_spec q "a.md") as [->|Hne]; [done|].
  split; [done|]. intros [= ->]. done.
Qed.

End MemStoreLaws.

(** * The properties on the in-memory store *)

Import Runs.

Lemma add_chunks_writes_and_progress_witness :
  table table0 = Some lance0 /\
  length (write_calls
            (events (RagnoteTable_add table0 (Scenario.batch 120)
                       (observer true) empty_store))) = 3.
Proof.
  split; [reflexivity|].
  exact (proj1 (add_chunks_writes_and_progress table0 lance0
                  (Scenario.batch 120) true empty_store eq_refl)).
Defined.

Lemma add_isolates_chunk_failures_witness :
  table table0 = Some lance0 /\
  add_answers lance0
    (chunk_loop (map entry_to_record (Scenario.batch 120)) 0 [])
    (MemStore.state [] [false; true] []).(store) !! 1
    = Some (Throw (Error "add failed")) /\
  res faulty_add = Ok tt /\
  length (write_calls (events faulty_add)) = 3.
Proof.
  assert (Hk : add_answers lance0
                 (chunk_loop (map entry_to_record (Scenario.batch 120)) 0 [])
                 (MemStore.state [] [false; true] []).(store) !! 1
               = Some (Throw (Error "add failed")))
    by (vm_compute; reflexivity).
  split; [reflexivity|]. split; [exact Hk|].
  destruct (add_isolates_chunk_failures table0 lance0 (Scenario.batch 120)
              true (MemStore.state [] [false; true] []) 1
              (Error "add failed") eq_refl Hk) as (Hres & Hw & _).
  split; [exact Hres|].
  unfold faulty_add. rewrite Hw. vm_compute. reflexivity.
Defined.

(** C3: the code does not do what is claimed.  [search] and [filter]
    return the raw rows mapped one by one, and nothing removes the [null]
    that stands for a malformed row: on a table that holds a row with only
    a note path, followed by a well-formed row, each of them answers with a
    list whose first element is [null]. *)
Theorem search_and_filter_keep_null_for_malformed_rows :
  let st := MemStore.state
              [Scenario.malformed; Scenario.stored "a.md" "alpha" 1000] [] [] in
  res (RagnoteTable_search table0 "alpha" 10 None st) =
    Ok [None; Some (Scenario.stored "a.md" "alpha" 1000)] /\
  res (RagnoteTable_filter table0 "notepath = 'a.md'" (Some 2) st) =
    Ok [None; Some (Scenario.stored "a.md" "alpha" 1000)].
Proof. split; vm_compute; reflexivity. Qed.

Lemma repopulate_twice_writes_nothing_witness :
  table table0 = Some lance0 /\
  res first_run = Ok tt /\
  writes_succeeded (events first_run) = true /\
  write_calls (events second_run) = [].
Proof.
  assert (Hres : res first_run = Ok tt) by (vm_compute; reflexivity).
  assert (Hws : writes_succeeded (events first_run) = true)
    by (vm_compute; reflexivity).
  split; [reflexivity|]. split; [exact Hres|]. split; [exact Hws|].
  exact (repopulate_twice_writes_nothing Scenario.clock Scenario.readFileSync
           Scenario.GetFilesInfoList lance0 MemStore.rows MemStore.matches
           (memstore_laws _) memstore_content_split
           table0 "notes" [".md"%string] true true empty_store
           eq_refl Hres Hws).
Defined.

(** C5 fails as stated.  When the store refuses the write of an update, the
    update still returns normally and leaves no row for the path.  And when
    the clock reads the same instant as when the path was last written, the
    row of the update carries the timestamp of the row it replaces, not a
    later one. *)
Lemma updateNoteInTable_row_count_and_timestamp_counterexample :
  (res update_unwritten = Ok tt /\
   rows_for "a.md" (MemStore.rows (store (final update_unwritten))) = []) /\
  (res update_same_instant = Ok tt /\
   map (fun r : RawRow => r !! "timeadded"%string)
       (rows_for "a.md" (MemStore.rows (store (final update_same_instant))))
     = [Some (VDate 1000)] /\
   map (fun r : RawRow => r !! "timeadded"%string)
       (rows_for "a.md" two_notes)
     = [Some (VDate 1000)]).
Proof. repeat split; vm_compute; reflexivity. Qed.

Lemma updateNoteInTable_replaces_witness :
  table table0 = Some lance0 /\
  path_filter_exact MemStore.matches "a.md" /\
  res update_a = Ok tt /\
  length (rows_for "a.md" (MemStore.rows (store (final update_a)))) = 1.
Proof.
  split; [reflexivity|]. split; [apply memstore_path_a|].
  pose (s0 := store (MemStore.state two_notes [] [])).
  pose (s1 := snd (lance_delete lance0 (path_equals "a.md") s0)).
  pose (record := entry_to_record (Scenario.note "a.md" "beta" 1000)).
  pose (s2 := snd (lance_add lance0 [record] s1)).
  assert (Hd : lance_delete lance0 (path_equals "a.md") s0 = (Ok tt, s1))
    by (vm_compute; reflexivity).
  assert (Ha : lance_add lance0 [record] s1 = (Ok tt, s2))
    by (vm_compute; reflexivity).
  destruct (proj2 (updateNoteInTable_replaces Scenario.clock lance0
                     MemStore.rows MemStore.matches (memstore_laws _)
                     table0 "a.md" "beta" (MemStore.state two_notes [] [])
                     eq_refl memstore_path_a)
                  s1 (Ok tt) s2 Hd Ha) as (Hres & _ & Hrows).
  split; [exact Hres|].
  destruct (Hrows eq_refl) as (kept & Hk & _).
  unfold update_a. rewrite Hk. reflexivity.
Defined.

(** C6 fails as stated: [add] on a table on which [initialize] has not run
    does not fail. *)
Lemma add_before_initialize_counterexample :
  ~ exists e,
      res (RagnoteTable_add fresh (Scenario.batch 1) None empty_store)
      = Throw e.
Proof. intros [e H]. vm_compute in H. discriminate H. Qed.

Lemma uninitialized_operations_witness :
  table fresh = None /\
  RagnoteTable_countRows fresh empty_store =
    {| res := Throw (TypeError "Cannot read properties of undefined");
       final := empty_store; events := [] |} /\
  res (RagnoteTable_add fresh (Scenario.batch 1) (observer false) empty_store)
    = Ok tt.
Proof.
  split; [reflexivity|].
  destruct (uninitialized_operations fresh empty_store eq_refl)
    as (_ & _ & _ & Hcount & Hadd).
  split; [exact Hcount|].
  exact (proj1 (Hadd (Scenario.batch 1) false)).
Defined.

Lemma getTableAsArray_two_queries_witness :
  table table0 = Some lance0 /\
  query_calls (events (getTableAsArray table0 (MemStore.state two_notes [] [])))
    = [filter_query "content != ''" 2; filter_query "content = ''" 2].
Proof.
  split; [reflexivity|].
  pose (s := store (MemStore.state two_notes [] [])).
  assert (Hc : lance_countRows lance0 s = (Ok 2, s)) by reflexivity.
  assert (H1 : lance_execute lance0 (filter_query "content != ''" 2) s
               = (Ok [Scenario.stored "a.md" "alpha" 1000], s))
    by (vm_compute; reflexivity).
  assert (H2 : lance_execute lance0 (filter_query "content = ''" 2) s
               = (Ok [Scenario.stored "b.md" EmptyString 1000], s))
    by (vm_compute; reflexivity).
  destruct (proj2 (getTableAsArray_two_queries table0 lance0
                     (MemStore.state two_notes [] []) eq_refl)
                  2 s _ s _ s (Nat.neq_succ_0 1) Hc H1 H2) as (_ & _ & Hq).
  exact Hq.
Defined.

(** C8 fails as stated: [isFileInDB] issues one query, on the note path,
    and not a pair of queries split on the content. *)
Lemma isFileInDB_two_queries_counterexample :
  query_calls (events (isFileInDB table0 "a.md" 2
                         (MemStore.state two_notes [] [])))
    = [filter_query "notepath = 'a.md'" 2] /\
  ~ exists q1 q2,
      query_calls (events (isFileInDB table0 "a.md" 2
                             (MemStore.state two_notes [] [])))
      = [q1; q2].
Proof.
  split; [reflexivity|].
  intros (q1 & q2 & H). vm_compute in H. discriminate H.
Qed.

Lemma isFileInDB_one_query_witness :
  table table0 = Some lance0 /\
  2 <> 0 /\
  lance_execute lance0 (filter_query "notepath = 'a.md'" 2)
    (store (MemStore.state two_notes [] []))
    = (Ok [Scenario.stored "a.md" "alpha" 1000],
       store (MemStore.state two_notes [] [])) /\
  res (isFileInDB table0 "a.md" 2 (MemStore.state two_notes [] [])) = Ok true.
Proof.
  assert (Hq : lance_execute lance0 (filter_query "notepath = 'a.md'" 2)
                 (store (MemStore.state two_notes [] []))
               = (Ok [Scenario.stored "a.md" "alpha" 1000],
                  store (MemStore.state two_notes [] [])))
    by (vm_compute; reflexivity).
  split; [reflexivity|]. split; [exact (Nat.neq_succ_0 1)|].
  split; [exact Hq|].
  destruct (isFileInDB_one_query table0 lance0 "a.md" 2
              (MemStore.state two_notes [] []) _ _
              eq_refl (Nat.neq_succ_0 1) Hq) as (_ & _ & Htrue & _).
  apply Htrue. discriminate.
Defined.

Lemma removeTree_stops_at_first_failure_witness :
  table table0 = Some lance0 /\
  res remove_faulty = Throw (Error "delete failed") /\
  exists done failed rest,
    ["a.md"; "b.md"; "c.md"]%string = done ++ failed :: rest /\
    delete_calls (events remove_faulty) = map path_equals (done ++ [failed]).
Proof.
  assert (Hres : res remove_faulty = Throw (Error "delete failed"))
    by (vm_compute; reflexivity).
  split; [reflexivity|]. split; [exact Hres|].
  destruct (proj2 (removeTree_stops_at_first_failure
                     Scenario.flattenFileInfoTree table0 lance0 three_files
                     (MemStore.state two_notes [] [false; true]) eq_refl)
                  (Error "delete failed") Hres)
    as (d & f & rest & Hp & _ & Hcalls).
  exists d, f, rest. split; [exact Hp | exact Hcalls].
Defined.

(** * Further properties of the code *)

(** ** More on the batch writer *)

Lemma ceil_div_upper n : n <= ceil_div n chunkSize * chunkSize.
Proof.
  unfold ceil_div, chunkSize.
  pose proof (Nat.div_mod (n + 50 - 1) 50 ltac:(lia)) as E.
  pose proof (Nat.mod_upper_bound (n + 50 - 1) 50 ltac:(lia)) as B.
  lia.
Qed.

Section BatchWriterMore.
Context {S Connection EmbeddingFunction : Type}.
Implicit Types (this : RagnoteTable S Connection EmbeddingFunction).
Implicit Types (st : State S) (tbl : LanceDBTable S).

(** X1: The write calls of [RagnoteTable.add] carry full chunks of 50 records,
    except the last one, which carries what is left of the input. *)
Theorem add_fills_chunks this tbl data observed st :
  table this = Some tbl ->
  let chunks :=
    write_calls (events (RagnoteTable_add this data (observer observed) st)) in
  let total := ceil_div (length data) chunkSize in
  forall k chunk,
    chunks !! k = Some chunk ->
    (k + 1 < total -> length chunk = chunkSize) /\
    (k + 1 = total -> length chunk = length data - k * chunkSize).
Proof.
  intros Ht chunks total k chunk. subst chunks.
  rewrite (add_run_writes _ tbl) by done.
  intros Hlk.
  assert (Hk : k < total).
  { apply lookup_lt_Some in Hlk.
    by rewrite chunk_loop_length, length_map in Hlk. }
  rewrite chunk_loop_lookup in Hlk by (by rewrite length_map).
  injection Hlk as <-. rewrite slice_length, length_map.
  pose proof (ceil_div_upper (length data)) as Hup. fold total in Hup.
  split; intros Hlast.
  - assert (Datatypes.S k * chunkSize < length data)
      by (apply ceil_div_index; fold total; lia).
    unfold chunkSize in *. lia.
  - unfold chunkSize in *. nia.
Qed.

Lemma guarded_add_run this tbl (chunk : list RawRow) st :
  table this = Some tbl ->
  try_catch
    (bind (this_table this)
          (fun t => store_call (lance_add t chunk) (TableAdd chunk)))
    (fun _ => ret tt) st =
  {| res := Ok tt;
     final := {| store := snd (lance_add tbl chunk (store st));
                 dates_read := dates_read st |};
     events := [TableAdd chunk (fst (lance_add tbl chunk (store st)))] |}.
Proof.
  intros Ht. unfold try_catch, bind, this_table, store_call. rewrite Ht. cbn.
  by destruct (lance_add tbl chunk (store st)) as [[[]|e] s'].
Qed.

(** X2: An error of the progress callback is not caught: when the callback
    throws on its first invocation, after the first write call, [add]
    throws that error and hands no further chunk to the store. *)
Theorem add_callback_error_escapes this tbl data (cb : Q -> M S unit)
    st chunk rest e :
  table this = Some tbl ->
  chunk_loop (map entry_to_record data) 0 [] = chunk :: rest ->
  let written := {| store := snd (lance_add tbl chunk (store st));
                    dates_read := dates_read st |} in
  let progress := js_div 1 (Datatypes.S (length rest)) in
  res (cb progress written) = Throw e ->
  let o := RagnoteTable_add this data (Some cb) st in
  res o = Throw e /\
  events o = TableAdd chunk (fst (lance_add tbl chunk (store st))) ::
             events (cb progress written) /\
  final o = final (cb progress written).
Proof.
  intros Ht Hchunks written progress Hcb o. subst o.
  unfold RagnoteTable_add. rewrite Hchunks. cbn [add_loop length].
  rewrite bind_res, bind_events, bind_final, (guarded_add_run _ tbl) by done.
  cbn [res final events]. fold written. fold progress.
  rewrite bind_res, bind_events, bind_final, Hcb.
  repeat split. cbn. by rewrite app_nil_r.
Qed.

(** X3: [deleteAllRowsInTable] never throws, whatever the store answers and
    whether or not the table is initialized, and it neither writes nor
    queries.  On an initialized table it first deletes the rows with a
    non-empty content; if that call throws, the second delete call, for the
    rows with an empty content, is not issued. *)
Theorem deleteAllRowsInTable_never_throws this st :
  let o := deleteAllRowsInTable this st in
  res o = Ok tt /\
  write_calls (events o) = [] /\
  query_calls (events o) = [] /\
  forall tbl,
    table this = Some tbl ->
    (forall e s1,
       lance_delete tbl "content != ''" (store st) = (Throw e, s1) ->
       events o = [TableDelete "content != ''" (Throw e)]) /\
    (forall s1 r s2,
       lance_delete tbl "content != ''" (store st) = (Ok tt, s1) ->
       lance_delete tbl "content = ''" s1 = (r, s2) ->
       events o = [TableDelete "content != ''" (Ok tt);
                   TableDelete "content = ''" r] /\
       store (final o) = s2).
Proof.
  cbn zeta. unfold deleteAllRowsInTable.
  change (DatabaseFields.CONTENT ++ " != ''")%string with "content != ''"%string.
  change (DatabaseFields.CONTENT ++ " = ''")%string with "content = ''"%string.
  destruct (table this) as [tbl|] eqn:Ht.
  - destruct (lance_delete tbl "content != ''" (store st))
      as [[[]|e1] s1] eqn:H1.
    + destruct (lance_delete tbl "content = ''" s1) as [r2 s2] eqn:H2.
      assert (Hrun :
        try_catch
          (bind (RagnoteTable_delete this "content != ''")
                (fun _ => RagnoteTable_delete this "content = ''"))
          (fun _ => ret tt) st =
        {| res := Ok tt;
           final := {| store := s2; dates_read := dates_read st |};
           events := [TableDelete "content != ''" (Ok tt);
                      TableDelete "content = ''" r2] |}).
      { unfold try_catch, bind.
        rewrite (delete_run _ _ _ _ _ _ Ht H1). cbn.
        rewrite (delete_run _ tbl _ _ r2 s2 Ht) by exact H2. cbn.
        destruct r2 as [[]|e2]; cbn; by rewrite ?app_nil_r. }
      rewrite Hrun. cbn. do 3 (split; [done|]).
      intros tbl' [= <-]. split.
      * intros e s1' H. rewrite H1 in H. discriminate H.
      * intros s1' r s2' H H'. rewrite H1 in H. injection H as <-.
        rewrite H2 in H'. by injection H' as <- <-.
    + assert (Hrun :
        try_catch
          (bind (RagnoteTable_delete this "content != ''")
                (fun _ => RagnoteTable_delete this "content = ''"))
          (fun _ => ret tt) st =
        {| res := Ok tt;
           final := {| store := s1; dates_read := dates_read st |};
           events := [TableDelete "content != ''" (Throw e1)] |}).
      { unfold try_catch, bind.
        rewrite (delete_run _ _ _ _ _ _ Ht H1). cbn. done. }
      rewrite Hrun. cbn. do 3 (split; [done|]).
      intros tbl' [= <-]. split.
      * intros e s1' H. rewrite H1 in H. by injection H as <- <-.
      * intros s1' r s2' H. rewrite H1 in H. discriminate H.
  - unfold try_catch, bind, RagnoteTable_delete.
    rewrite this_table_undefined by done. cbn. do 3 (split; [done|]). done.
Qed.

(** X5: [RagnoteTable.search] on an initialized table issues exactly one query:
    the text, the limit, and the filter unless it is missing or the empty
    string, which is ignored.  An error of the store is the error of
    [search]; an answer is returned element by element, each row as it is
    or as [null]. *)
Theorem search_issues_one_query this tbl query limit filter st :
  table this = Some tbl ->
  let o := RagnoteTable_search this query limit filter st in
  let q := {| q_key := QText query;
              q_limit := Some limit;
              q_filter := match filter with
                          | Some f => if String.eqb f EmptyString then None
                                      else Some f
                          | None => None
                          end |} in
  let answer := fst (lance_execute tbl q (store st)) in
  events o = [TableExecute q answer] /\
  store (final o) = snd (lance_execute tbl q (store st)) /\
  (forall e, answer = Throw e -> res o = Throw e) /\
  (forall rawResults,
     answer = Ok rawResults ->
     exists results,
       res o = Ok results /\
       length results = length rawResults /\
       forall i x, results !! i = Some x ->
         exists raw, rawResults !! i = Some raw /\ (x = Some raw \/ x = None)).
Proof.
  intros Ht o q answer. subst o answer.
  destruct (lance_execute tbl q (store st)) as [r s'] eqn:Hq.
  assert (Hrun := search_run this tbl query limit filter st r s' Ht).
  cbn zeta in Hrun. rewrite Hrun.
  - cbn. destruct filter as [f|]; [destruct (String.eqb f EmptyString)|];
      (repeat split; [by intros e ->|]);
      intros rawResults ->; eexists; (split; [reflexivity|]);
      (split; [apply length_map|]);
      intros i x Hx; rewrite list_lookup_fmap in Hx;
      destruct (rawResults !! i) as [raw|]; try done;
      injection Hx as <-; exists raw; (split; [done|]);
      unfold convertRawDBResultToRagnoteDBEntry;
      destruct (_ && _); auto.
  - subst q. by destruct filter as [f|]; [destruct (String.eqb f EmptyString)|].
Qed.

(** X6: [RagnoteTable.filter] on an initialized table issues exactly one query:
    a vector of 768 ones, the filter, and the limit, which is 10 when none
    is given.  An error of the store is the error of [filter]; an answer is
    returned element by element, each row as it is or as [null]. *)
Theorem filter_issues_one_query this tbl filterString limit st :
  table this = Some tbl ->
  let o := RagnoteTable_filter this filterString limit st in
  let q := {| q_key := QVector (replicate 768 1%Z);
              q_limit := Some (match limit with Some n => n | None => 10 end);
              q_filter := Some filterString |} in
  let answer := fst (lance_execute tbl q (store st)) in
  events o = [TableExecute q answer] /\
  store (final o) = snd (lance_execute tbl q (store st)) /\
  (forall e, answer = Throw e -> res o = Throw e) /\
  (forall rawResults,
     answer = Ok rawResults ->
     exists results,
       res o = Ok results /\
       length results = length rawResults /\
       forall i x, results !! i = Some x ->
         exists raw, rawResults !! i = Some raw /\ (x = Some raw \/ x = None)).
Proof.
  intros Ht o q answer. subst o answer.
  destruct (lance_execute tbl q (store st)) as [r s'] eqn:Hq.
  rewrite (filter_run this tbl filterString limit st r s' Ht)
    by (by destruct limit).
  cbn. replace (filter_query filterString (default 10 limit)) with q
    by (by destruct limit).
  repeat split; [by intros e ->|].
  intros rawResults ->. eexists. split; [reflexivity|].
  split; [apply length_map|].
  intros i x Hx. rewrite list_lookup_fmap in Hx.
  destruct (rawResults !! i) as [raw|]; [|done].
  injection Hx as <-. exists raw. split; [done|].
  unfold convertRawDBResultToRagnoteDBEntry. destruct (_ && _); auto.
Qed.

End BatchWriterMore.

(** ** Conversion of files *)

Lemma delete_calls_app evs1 evs2 :
  delete_calls (evs1 ++ evs2) = delete_calls evs1 ++ delete_calls evs2.
Proof. apply flat_map_app. Qed.

Section Conversion.
Context {S Connection EmbeddingFunction FileInfoTree : Type}.
Variable clock : nat -> Z.
Variable readFileSync : string -> option string.
Variable flattenFileInfoTree : FileInfoTree -> list FileInfo.
Implicit Types (this : RagnoteTable S Connection EmbeddingFunction).
Implicit Types (st : State S) (tbl : LanceDBTable S).

Lemma outcome_ext {A} (o o' : Outcome S A) :
  res o = res o' -> final o = final o' -> events o = events o' -> o = o'.
Proof. destruct o, o'. cbn. by intros -> -> ->. Qed.

Lemma convert_files_entries (files : list FileInfo) : forall st : State S,
  mapM (convertFileTypeToDBType clock readFileSync) files st =
  {| res := Ok (imap (file_entry clock readFileSync (dates_read st)) files);
     final := {| store := store st;
                 dates_read := dates_read st + length files |};
     events := [] |}.
Proof.
  induction files as [|f rest IH]; intros st; cbn [mapM].
  - cbn. rewrite Nat.add_0_r. by destruct st.
  - apply outcome_ext;
      rewrite ?bind_res, ?bind_final, ?bind_events, convert_file_run;
      cbn [res final events];
      rewrite ?bind_res, ?bind_final, ?bind_events, IH;
      cbn [res final events store dates_read app ret length imap].
    + f_equal. f_equal.
      * unfold file_entry. by rewrite Nat.add_0_r.
      * apply imap_ext. intros i x _. unfold file_entry. cbn.
        do 2 f_equal. lia.
    + f_equal. lia.
    + done.
Qed.

(** X7: [convertTreeToDBEntries] never throws and calls nothing: it makes one
    record per file of the flattened tree, in order, with the path of the
    file, its content, or the empty string when it cannot be read, the
    sub-note index 0, no vector, and the successive readings of the clock
    as timestamps. *)
Theorem convertTreeToDBEntries_records (tree : FileInfoTree) (st : State S) :
  let files := flattenFileInfoTree tree in
  let o := convertTreeToDBEntries clock readFileSync flattenFileInfoTree
             tree st in
  exists entries,
    res o = Ok entries /\
    events o = [] /\
    store (final o) = store st /\
    length entries = length files /\
    forall i f, files !! i = Some f ->
      exists e,
        entries !! i = Some e /\
        notepath e = path f /\ vector e = None /\ subnoteindex e = 0%Z /\
        timeadded e = clock (dates_read st + i) /\
        (readFileSync (path f) = None -> content e = EmptyString) /\
        (forall text, readFileSync (path f) = Some text -> content e = text).
Proof.
  intros files o. subst o. unfold convertTreeToDBEntries. fold files.
  rewrite convert_files_entries. cbn [res final events store].
  eexists. split; [reflexivity|]. split; [done|]. split; [done|].
  split; [apply length_imap|].
  intros i f Hf. eexists. rewrite list_lookup_imap, Hf. cbn.
  split; [reflexivity|]. cbn. unfold readFile.
  do 4 (split; [reflexivity|]). split.
  - by intros ->.
  - by intros text ->.
Qed.

Lemma only_writes_add_trace total (calls : list (list RawRow * result unit)) :
  forall index, only_writes (add_trace false total index calls).
Proof.
  induction calls as [|[c r] rest IH]; intros index; cbn [add_trace app].
  - constructor.
  - constructor; [by exists c, r | apply IH].
Qed.

(** X8: [addTreeToTable] on an initialized table never throws and never reads
    the table: all it issues are write calls, which carry, chunk after
    chunk, the records of the files of the flattened tree, in order, whether
    or not the table already holds rows for them.  [populateDBWithFiles]
    does the same for a list of files. *)
Theorem addTreeToTable_writes_every_file this tbl (fileTree : FileInfoTree) st :
  table this = Some tbl ->
  let files := flattenFileInfoTree fileTree in
  let entries := imap (file_entry clock readFileSync (dates_read st)) files in
  let o := addTreeToTable clock readFileSync flattenFileInfoTree this
             fileTree st in
  res o = Ok tt /\
  only_writes (events o) /\
  concat (write_calls (events o)) = map entry_to_record entries /\
  length (write_calls (events o)) = ceil_div (length files) chunkSize /\
  populateDBWithFiles clock readFileSync this files st = o.
Proof.
  intros Ht files entries o. subst o.
  unfold addTreeToTable, populateDBWithFiles, convertTreeToDBEntries.
  fold files.
  rewrite bind_res, bind_events, convert_files_entries. cbn [res final events].
  fold entries.
  change (RagnoteTable_add this entries None)
    with (RagnoteTable_add this entries (observer false)).
  rewrite (add_run _ tbl) by done. cbn [res events app].
  split; [done|]. split; [apply only_writes_add_trace|].
  rewrite write_calls_add_trace, fst_zip by (by rewrite add_answers_length).
  split; [apply chunk_loop_partition|].
  split; [|done].
  rewrite chunk_loop_length, length_map. unfold entries.
  by rewrite length_imap.
Qed.

End Conversion.

(** ** Operations that only read *)

Lemma reads_only_app evs1 evs2 :
  reads_only evs1 -> reads_only evs2 -> reads_only (evs1 ++ evs2).
Proof. apply Forall_app_2. Qed.

Lemma reads_only_silent evs :
  reads_only evs ->
  write_calls evs = [] /\ delete_calls evs = [] /\ progress_calls evs = [].
Proof.
  induction 1 as [|ev evs Hev _ (IHw & IHd & IHp)]; [done|].
  destruct ev; try discriminate Hev; cbn; by rewrite ?IHw, ?IHd, ?IHp.
Qed.

Section Reads.
Context {S Connection EmbeddingFunction : Type}.
Implicit Types (this : RagnoteTable S Connection EmbeddingFunction).
Implicit Types (st : State S) (tbl : LanceDBTable S).

Lemma store_call_dates {A} (f : S -> result A * S) ev st :
  dates_read (final (store_call f ev st)) = dates_read st.
Proof. unfold store_call. by destruct (f (store st)). Qed.

Lemma countRows_reads this st :
  reads_only (events (RagnoteTable_countRows this st)) /\
  dates_read (final (RagnoteTable_countRows this st)) = dates_read st.
Proof.
  unfold RagnoteTable_countRows, this_table.
  destruct (table this) as [tbl|]; [|by split; [constructor|]].
  rewrite bind_ret. split; [|apply store_call_dates].
  unfold store_call. destruct (lance_countRows _ _).
  by repeat constructor.
Qed.

Lemma filter_reads this filterString limit st :
  reads_only (events (RagnoteTable_filter this filterString limit st)) /\
  dates_read (final (RagnoteTable_filter this filterString limit st)) =
    dates_read st.
Proof.
  unfold RagnoteTable_filter, this_table.
  destruct (table this) as [tbl|]; [|by split; [constructor|]].
  rewrite bind_ret, bind_events, bind_final.
  pose proof (store_call_dates
                (lance_execute tbl (filter_query filterString (default 10 limit)))
                (TableExecute (filter_query filterString (default 10 limit)))
                st) as Hd.
  unfold store_call in *.
  destruct (lance_execute _ _ _) as [[rs|e] s']; cbn in *;
    (split; [by repeat constructor | done]).
Qed.

Lemma search_reads this query limit filter st :
  reads_only (events (RagnoteTable_search this query limit filter st)).
Proof.
  unfold RagnoteTable_search, this_table.
  destruct (table this) as [tbl|]; [|constructor].
  rewrite bind_ret, bind_events. unfold store_call.
  destruct (lance_execute _ _ _) as [[rs|e] s']; cbn; by repeat constructor.
Qed.

Lemma getTableAsArray_reads this st :
  reads_only (events (getTableAsArray this st)) /\
  dates_read (final (getTableAsArray this st)) = dates_read st.
Proof.
  unfold getTableAsArray.
  destruct (countRows_reads this st) as [Hc Hcd].
  rewrite bind_events, bind_final.
  destruct (res (RagnoteTable_countRows this st)) as [n|e];
    [|by rewrite app_nil_r].
  destruct (n =? 0); [by rewrite app_nil_r|].
  set (st1 := final (RagnoteTable_countRows this st)) in *.
  destruct (filter_reads this "content != ''" (Some n) st1) as [H1 H1d].
  change (DatabaseFields.CONTENT ++ " != ''")%string with "content != ''"%string.
  change (DatabaseFields.CONTENT ++ " = ''")%string with "content = ''"%string.
  rewrite bind_events, bind_final.
  destruct (res (RagnoteTable_filter this "content != ''" (Some n) st1))
    as [r1|e].
  - set (st2 := final (RagnoteTable_filter this "content != ''" (Some n) st1))
      in *.
    destruct (filter_reads this "content = ''" (Some n) st2) as [H2 H2d].
    rewrite bind_events, bind_final.
    destruct (res (RagnoteTable_filter this "content = ''" (Some n) st2));
      cbn [events final ret]; rewrite ?app_nil_r;
      (split; [by repeat apply reads_only_app | congruence]).
  - rewrite app_nil_r. split; [by apply reads_only_app | congruence].
Qed.

(** X9: The operations that look rows up only read: whatever the store answers
    and whether or not the table is initialized, [countRows], [search],
    [filter], [getTableAsArray] and [isFileInDB] issue counts and queries
    only, never a write or a delete call, and never invoke a callback. *)
Theorem lookups_only_read this st :
  reads_only (events (RagnoteTable_countRows this st)) /\
  (forall query limit filter,
     reads_only (events (RagnoteTable_search this query limit filter st))) /\
  (forall filterString limit,
     reads_only (events (RagnoteTable_filter this filterString limit st))) /\
  reads_only (events (getTableAsArray this st)) /\
  (forall filePath tableCount,
     reads_only (events (isFileInDB this filePath tableCount st))).
Proof.
  split; [apply countRows_reads|].
  split; [intros; apply search_reads|].
  split; [intros; apply filter_reads|].
  split; [apply getTableAsArray_reads|].
  intros filePath tableCount. unfold isFileInDB.
  destruct (tableCount =? 0); [constructor|].
  rewrite bind_events.
  destruct (res (RagnoteTable_filter _ _ _ _)); rewrite app_nil_r;
    apply filter_reads.
Qed.

End Reads.

(** ** What a run of the reconciliation issues *)

Section Repopulate.
Context {S Connection EmbeddingFunction : Type}.
Variable clock : nat -> Z.
Variable readFileSync : string -> option string.
Variable GetFilesInfoList : string -> list string -> list FileInfo.
Implicit Types (this : RagnoteTable S Connection EmbeddingFunction).
Implicit Types (st : State S) (tbl : LanceDBTable S).

Lemma get_notepaths_no_null (tableArray : list (option RawRow)) st :
  Forall is_Some tableArray ->
  mapM get_notepath tableArray st =
  {| res := Ok (notepaths tableArray); final := st; events := [] |}.
Proof.
  induction 1 as [|x rest [r ->] _ IH]; [done|].
  cbn [mapM get_notepath]. rewrite bind_ret.
  apply outcome_ext; rewrite ?bind_res, ?bind_final, ?bind_events, IH; done.
Qed.

Lemma get_notepaths_null (tableArray : list (option RawRow)) st :
  None ∈ tableArray ->
  mapM get_notepath tableArray st =
  {| res := Throw (TypeError "Cannot read properties of null");
     final := st; events := [] |}.
Proof.
  induction tableArray as [|x rest IH]; intros Hin.
  - by apply elem_of_nil in Hin.
  - cbn [mapM]. destruct x as [r|]; [|done].
    apply elem_of_cons in Hin as [Hin|Hin]; [done|].
    cbn [get_notepath]. rewrite bind_ret.
    apply outcome_ext; rewrite ?bind_res, ?bind_final, ?bind_events, IH;
      done.
Qed.

Lemma delete_calls_add_trace observed total
    (calls : list (list RawRow * result unit)) : forall index,
  delete_calls (add_trace observed total index calls) = [].
Proof.
  induction calls as [|[c r] rest IH]; intros index; [done|].
  cbn [add_trace]. change (TableAdd c r :: ?l) with ([TableAdd c r] ++ l).
  rewrite !delete_calls_app, IH. by destruct observed.
Qed.

Lemma delete_calls_reports (f : nat -> Q) l :
  delete_calls (map (fun k => OnProgress (f k)) l) = [].
Proof. induction l as [|k l IH]; [done|]. exact IH. Qed.

Lemma add_no_deletes this data observed st :
  delete_calls (events (RagnoteTable_add this data (observer observed) st)) = [].
Proof.
  destruct (table this) as [tbl|] eqn:Ht.
  - rewrite (add_run _ tbl) by done. apply delete_calls_add_trace.
  - unfold RagnoteTable_add. rewrite add_loop_uninitialized by done.
    cbn [events]. destruct observed; [|done]. apply delete_calls_reports.
Qed.

(** The events of a run whose table array came back without [null]. *)
Lemma repopulate_events this tbl directoryPath extensions observed st
    tableArray :
  table this = Some tbl ->
  res (getTableAsArray this st) = Ok tableArray ->
  Forall is_Some tableArray ->
  let st0 := final (getTableAsArray this st) in
  let missing :=
    missing_files tableArray (GetFilesInfoList directoryPath extensions) in
  let entries := imap (file_entry clock readFileSync (dates_read st)) missing in
  let chunks := chunk_loop (map entry_to_record entries) 0 [] in
  let st2 := {| store := add_store tbl chunks (store st0);
                dates_read := dates_read st + length missing |} in
  events (maybeRePopulateTable clock readFileSync GetFilesInfoList this
            directoryPath extensions (observer observed) st) =
  events (getTableAsArray this st) ++
  add_trace observed (length chunks) 0
    (zip chunks (add_answers tbl chunks (store st0))) ++
  (if observed then [OnProgress 1%Q] else []) ++
  events (RagnoteTable_countRows this st2).
Proof.
  intros Ht Harr Hnn st0 missing entries chunks st2.
  unfold maybeRePopulateTable.
  rewrite bind_events, Harr. f_equal. fold st0.
  rewrite bind_events, get_notepaths_no_null by done. cbn [res final events app].
  fold (missing_files tableArray (GetFilesInfoList directoryPath extensions)).
  fold missing.
  rewrite bind_events, convert_files_entries. cbn [res final events app].
  assert (Hd : dates_read st0 = dates_read st)
    by apply getTableAsArray_reads.
  rewrite Hd. fold entries.
  rewrite bind_events, (add_run _ tbl) by done.
  cbn [res final events store dates_read]. fold chunks. f_equal.
  rewrite bind_events, observer_call_run. cbn [res final events].
  fold st2. f_equal.
  rewrite bind_events.
  destruct (res (RagnoteTable_countRows this st2)); cbn; by rewrite app_nil_r.
Qed.

Lemma repopulate_write_calls this tbl directoryPath extensions observed st
    tableArray :
  table this = Some tbl ->
  res (getTableAsArray this st) = Ok tableArray ->
  Forall is_Some tableArray ->
  write_calls
    (events (maybeRePopulateTable clock readFileSync GetFilesInfoList this
               directoryPath extensions (observer observed) st)) =
  chunk_loop
    (map entry_to_record
       (imap (file_entry clock readFileSync (dates_read st))
          (missing_files tableArray
             (GetFilesInfoList directoryPath extensions)))) 0 [].
Proof.
  intros Ht Harr Hnn.
  rewrite (repopulate_events _ tbl _ _ _ _ tableArray) by done.
  rewrite !write_calls_app.
  destruct (reads_only_silent _ (proj1 (getTableAsArray_reads this st)))
    as (-> & _ & _).
  match goal with |- context [RagnoteTable_countRows this ?s] =>
    destruct (reads_only_silent _ (proj1 (countRows_reads this s)))
      as (-> & _ & _) end.
  replace (write_calls (if observed then [OnProgress 1%Q] else []))
    with (@nil (list RawRow)) by (by destruct observed).
  rewrite !app_nil_r. cbn [app].
  by rewrite write_calls_add_trace, fst_zip by (by rewrite add_answers_length).
Qed.

(** X10: A run of [maybeRePopulateTable] on an initialized table whose rows all
    come back well formed writes exactly the listed files whose path is not
    a note path of the table: one record per such file, in the order of the
    listing, and one per occurrence when the listing names a path twice,
    with the content of the file, or the empty string when it cannot be
    read.  Files already in the table are not written again, whatever their
    content has become. *)
Theorem repopulate_writes_the_missing_files this tbl directoryPath extensions
    observed st tableArray :
  table this = Some tbl ->
  res (getTableAsArray this st) = Ok tableArray ->
  Forall is_Some tableArray ->
  let missing :=
    missing_files tableArray (GetFilesInfoList directoryPath extensions) in
  let o := maybeRePopulateTable clock readFileSync GetFilesInfoList this
             directoryPath extensions (observer observed) st in
  concat (write_calls (events o)) =
    map entry_to_record
        (imap (file_entry clock readFileSync (dates_read st)) missing) /\
  length (write_calls (events o)) = ceil_div (length missing) chunkSize /\
  (forall f, f ∈ missing <->
     f ∈ GetFilesInfoList directoryPath extensions /\
     Some (VString (path f)) ∉ notepaths tableArray).
Proof.
  intros Ht Harr Hnn missing o. subst o.
  rewrite (repopulate_write_calls _ tbl _ _ _ _ tableArray) by done.
  fold missing.
  split; [apply chunk_loop_partition|]. split.
  - by rewrite chunk_loop_length, length_map, length_imap.
  - intros f. unfold missing, missing_files.
    rewrite list_elem_of_In, filter_In, <- list_elem_of_In, negb_true_iff.
    pose proof (set_has_spec (notepaths tableArray) (path f)) as Hs.
    destruct (set_has _ _); split; intros [Hf Hn]; (split; [done|]).
    + discriminate Hn.
    + destruct Hn. by apply Hs.
    + intros Hin. apply Hs in Hin. discriminate Hin.
    + done.
Qed.

(** X11: The progress reported by a run of [maybeRePopulateTable] on an
    initialized table whose rows all come back well formed: the fractions
    [1/M .. M/M] of the [M] chunks written, followed by one more report of
    1; in particular 1 is reported once when nothing is missing and twice
    otherwise, and there is one report more than there are write calls. *)
Theorem repopulate_reports_progress this tbl directoryPath extensions st
    tableArray :
  table this = Some tbl ->
  res (getTableAsArray this st) = Ok tableArray ->
  Forall is_Some tableArray ->
  let missing :=
    missing_files tableArray (GetFilesInfoList directoryPath extensions) in
  let total := ceil_div (length missing) chunkSize in
  let o := maybeRePopulateTable clock readFileSync GetFilesInfoList this
             directoryPath extensions (Some spy) st in
  progress_calls (events o) =
    map (fun k => js_div k total) (seq 1 total) ++ [1%Q] /\
  length (progress_calls (events o)) =
    Datatypes.S (length (write_calls (events o))).
Proof.
  intros Ht Harr Hnn missing total o. subst o.
  change (Some spy) with (observer (S:=S) true).
  rewrite (repopulate_write_calls _ tbl _ _ _ _ tableArray) by done.
  rewrite chunk_loop_length, length_map, length_imap.
  fold missing. fold total.
  rewrite (repopulate_events _ tbl _ _ _ _ tableArray) by done.
  rewrite !progress_calls_app.
  destruct (reads_only_silent _ (proj1 (getTableAsArray_reads this st)))
    as (_ & _ & ->).
  match goal with |- context [RagnoteTable_countRows this ?s] =>
    destruct (reads_only_silent _ (proj1 (countRows_reads this s)))
      as (_ & _ & ->) end.
  rewrite app_nil_r. cbn [app].
  rewrite progress_calls_add_trace, length_zip, add_answers_length, Nat.min_id.
  rewrite chunk_loop_length, length_map, length_imap.
  fold missing. fold total. split; [done|].
  rewrite length_app, length_map, length_seq. cbn. lia.
Qed.

(** X12: When the table array holds a [null], that is, when the store returns a
    row that lacks one of the five fields, [maybeRePopulateTable] throws a
    [TypeError] right after reading the table: it writes nothing and
    reports no progress. *)
Theorem repopulate_throws_on_malformed_row this directoryPath extensions
    observed st tableArray :
  res (getTableAsArray this st) = Ok tableArray ->
  None ∈ tableArray ->
  let o := maybeRePopulateTable clock readFileSync GetFilesInfoList this
             directoryPath extensions (observer observed) st in
  res o = Throw (TypeError "Cannot read properties of null") /\
  events o = events (getTableAsArray this st) /\
  write_calls (events o) = [] /\
  progress_calls (events o) = [].
Proof.
  intros Harr Hnull o. subst o. unfold maybeRePopulateTable.
  rewrite bind_res, bind_events, Harr.
  rewrite bind_res, bind_events, get_notepaths_null by done.
  cbn [res events]. rewrite app_nil_r.
  destruct (reads_only_silent _ (proj1 (getTableAsArray_reads this st)))
    as (Hw & _ & Hp).
  done.
Qed.

(** X13: [maybeRePopulateTable] never deletes: whatever the table holds and
    whatever the store answers, it issues no delete call, so the rows of
    files that are no longer listed stay in the table. *)
Theorem repopulate_never_deletes this directoryPath extensions observed st :
  delete_calls
    (events (maybeRePopulateTable clock readFileSync GetFilesInfoList this
               directoryPath extensions (observer observed) st)) = [].
Proof.
  unfold maybeRePopulateTable.
  rewrite bind_events, delete_calls_app.
  destruct (reads_only_silent _ (proj1 (getTableAsArray_reads this st)))
    as (_ & -> & _).
  destruct (res (getTableAsArray this st)) as [arr|e]; [|done].
  destruct (get_notepaths_run arr (final (getTableAsArray this st)))
    as (He & Hf & _).
  rewrite bind_events, He, Hf. cbn [app].
  destruct (res (mapM get_notepath arr _)) as [paths|e]; [|done].
  rewrite bind_events, convert_files_entries. cbn [res final events app].
  rewrite bind_events, delete_calls_app, add_no_deletes. cbn [app].
  destruct (res (RagnoteTable_add _ _ _ _)); [|done].
  rewrite bind_events, observer_call_run. cbn [res final events].
  rewrite delete_calls_app.
  replace (delete_calls (if observed then [OnProgress 1%Q] else []))
    with (@nil string) by (by destruct observed).
  cbn [app]. rewrite bind_events, delete_calls_app.
  match goal with |- context [RagnoteTable_countRows this ?s] =>
    destruct (reads_only_silent _ (proj1 (countRows_reads this s)))
      as (_ & -> & _) end.
  by destruct (res (RagnoteTable_countRows _ _)).
Qed.

End Repopulate.

(** ** On a store that keeps what it is given *)

Lemma row_of_path_spec filePath (r : RawRow) :
  row_of_path filePath r = true <->
  r !! "notepath"%string = Some (VString filePath).
Proof.
  unfold row_of_path.
  destruct (r !! "notepath"%string) as [[q| | |]|]; try done.
  destruct (String.eqb_spec q filePath) as [->|Hne]; [done|].
  split; [done|]. by intros [= ->].
Qed.

Lemma filter_filter_and {A} (f g : A -> bool) (l : list A) :
  List.filter g (List.filter f l) = List.filter (fun x => f x && g x) l.
Proof.
  induction l as [|x l IH]; [done|]. cbn.
  destruct (f x); cbn; [destruct (g x)|]; by rewrite IH.
Qed.

Lemma filter_ext_in_list {A} (f g : A -> bool) (l : list A) :
  (forall x, x ∈ l -> f x = g x) -> List.filter f l = List.filter g l.
Proof.
  intros H. apply List.filter_ext_in. intros x Hx. apply H.
  by apply list_elem_of_In.
Qed.

Lemma rows_for_nonempty filePath (l : list RawRow) :
  rows_for filePath l <> [] <->
  exists r : RawRow, r ∈ l /\ r !! "notepath"%string = Some (VString filePath).
Proof.
  unfold rows_for. split.
  - destruct (List.filter _ l) as [|r rest] eqn:Hf; [done|]. intros _.
    assert (Hin : In r (List.filter (row_of_path filePath) l))
      by (rewrite Hf; by left).
    apply filter_In in Hin as [Hin Hp]. exists r.
    split; [by apply list_elem_of_In | by apply row_of_path_spec].
  - intros (r & Hin & Hp) Hnil.
    assert (Hr : In r (List.filter (row_of_path filePath) l)).
    { apply filter_In. split; [by apply list_elem_of_In|].
      by apply row_of_path_spec. }
    by rewrite Hnil in Hr.
Qed.

Lemma add_trace_succeeded observed total (chunks : list (list RawRow)) :
  forall (answers : list (result unit)) index,
    length answers = length chunks ->
    writes_succeeded (add_trace observed total index (zip chunks answers))
      = true ->
    Forall (fun r => r = Ok tt) answers.
Proof.
  induction chunks as [|c rest IH]; intros [|r answers] index Hlen Hws;
    try done.
  cbn in Hws. destruct r as [[]|e]; [|done].
  constructor; [done|]. apply (IH answers (Datatypes.S index)).
  - by injection Hlen.
  - unfold writes_succeeded in *. rewrite forallb_app in Hws.
    rewrite !andb_true_iff in Hws. tauto.
Qed.

Section Lawful.
Context {S Connection EmbeddingFunction FileInfoTree : Type}.
Variable clock : nat -> Z.
Variable readFileSync : string -> option string.
Variable GetFilesInfoList : string -> list string -> list FileInfo.
Variable flattenFileInfoTree : FileInfoTree -> list FileInfo.
Variable tbl : LanceDBTable S.
Variable rows_of : S -> list RawRow.
Variable matches : string -> RawRow -> bool.
Hypothesis laws : StoreLaws tbl rows_of matches.
Implicit Types (this : RagnoteTable S Connection EmbeddingFunction).
Implicit Types (st : State S).

(** X14: The materialization covers the table: when [getTableAsArray] returns,
    every element that is not [null] is a row of the table, and every row
    of the table whose content is a string is in the result, as itself or,
    when it lacks a field, as [null]; the store is left as it was. *)
Theorem getTableAsArray_covers_the_table this st tableArray :
  table this = Some tbl ->
  content_split matches ->
  res (getTableAsArray this st) = Ok tableArray ->
  final (getTableAsArray this st) = st /\
  (forall r : RawRow, Some r ∈ tableArray -> r ∈ rows_of (store st)) /\
  (forall (r : RawRow) c,
     r ∈ rows_of (store st) ->
     r !! "content"%string = Some (VString c) ->
     convertRawDBResultToRagnoteDBEntry r ∈ tableArray).
Proof.
  intros Ht Hsplit Harr.
  destruct (getTableAsArray_lawful tbl rows_of matches laws this st
              tableArray Ht Harr) as (Hfin & Hsound & Hcomplete).
  split; [done|]. split.
  - intros r Hr. by destruct (Hsound r Hr).
  - intros r c Hin Hc. apply Hcomplete; [done|]. by apply (Hsplit r c).
Qed.

Lemma isFileInDB_answer this filePath tableCount st b :
  table this = Some tbl ->
  path_query_exact matches filePath ->
  length (rows_of (store st)) <= tableCount ->
  res (isFileInDB this filePath tableCount st) = Ok b ->
  (b = true <-> rows_for filePath (rows_of (store st)) <> []).
Proof.
  intros Ht Hexact Hlen. unfold isFileInDB.
  destruct (Nat.eqb_spec tableCount 0) as [->|Hn].
  - intros [= <-]. destruct (rows_of (store st)); [done|]. cbn in Hlen. lia.
  - change (DatabaseFields.NOTE_PATH ++ " = '" ++ filePath ++ "'")%string
      with (path_is filePath).
    destruct (lance_execute tbl (filter_query (path_is filePath) tableCount)
                (store st)) as [r s'] eqn:Hq.
    rewrite bind_res.
    rewrite (filter_run _ tbl _ (Some tableCount) _ r s' Ht) by exact Hq.
    cbn. destruct r as [rs|e]; [|done].
    destruct (law_execute _ _ _ laws _ _ _ _ _ Hq) as (_ & Hsound & Hcomplete).
    intros [= <-]. rewrite length_map, rows_for_nonempty. split.
    + intros Hpos. destruct rs as [|r rs]; [done|].
      destruct (Hsound r) as [Hin Hm]; [apply list_elem_of_here|].
      exists r. split; [done|]. by apply Hexact.
    + intros (r & Hin & Hp).
      assert (Hr : r ∈ rs) by (apply Hcomplete; [done..|by apply Hexact]).
      destruct rs; [by apply elem_of_nil in Hr | done].
Qed.

(** X16: [isFileInDB] answers the question it is asked when the count it is
    given is at least the number of rows of the table: if it returns, it
    returns true exactly when the table holds a row of the path. *)
Theorem isFileInDB_finds_the_rows_of_a_path this filePath tableCount st b :
  table this = Some tbl ->
  path_query_exact matches filePath ->
  length (rows_of (store st)) <= tableCount ->
  res (isFileInDB this filePath tableCount st) = Ok b ->
  (b = true <-> rows_for filePath (rows_of (store st)) <> []).
Proof. apply isFileInDB_answer. Qed.


(** X18: A record that [add] has written comes back: after an [add] whose write
    calls were all answered without error, the materialization of the
    table, when it returns, holds for every record given a row with the
    same note path, content, sub-note index and timestamp, and a vector. *)
Theorem add_then_getTableAsArray this data observed st tableArray :
  table this = Some tbl ->
  content_split matches ->
  let o := RagnoteTable_add this data (observer observed) st in
  writes_succeeded (events o) = true ->
  res (getTableAsArray this (final o)) = Ok tableArray ->
  forall e, e ∈ data ->
    exists r : RawRow, Some r ∈ tableArray /\ holds_entry r e.
Proof.
  intros Ht Hsplit o Hws Harr e He. subst o.
  rewrite (add_run _ tbl) in Hws, Harr by done. cbn [events final] in *.
  set (chunks := chunk_loop (map entry_to_record data) 0 []) in *.
  apply add_trace_succeeded in Hws; [|apply add_answers_length].
  destruct (add_store_all_ok tbl rows_of matches laws chunks (store st) Hws)
    as (stored & Hrows & Hkept).
  unfold chunks in Hkept. rewrite chunk_loop_partition in Hkept.
  apply list_elem_of_lookup in He as [j Hj].
  assert (Hrj : map entry_to_record data !! j = Some (entry_to_record e))
    by (by rewrite list_lookup_fmap, Hj).
  destruct (Forall2_lookup_l _ _ _ _ _ Hkept Hrj) as (kept & Hkj & Hk).
  destruct (kept_entry e kept Hk) as (Hconv & Hp & Hc & Hi & Hts).
  destruct (getTableAsArray_lawful tbl rows_of matches laws this _
              tableArray Ht Harr) as (_ & _ & Hcomplete).
  exists kept. split.
  - rewrite <- Hconv. apply Hcomplete.
    + cbn [store]. rewrite Hrows, elem_of_app. right.
      by apply list_elem_of_lookup_2 in Hkj.
    + by apply (Hsplit kept (content e)).
  - repeat split; try done. apply Hk.
Qed.

End Lawful.

(** ** Deletions on a store that keeps what it is given *)

Lemma exact_filter_decides (matches : string -> RawRow -> bool) filePath :
  path_filter_exact matches filePath ->
  forall r : RawRow, matches (path_equals filePath) r = row_of_path filePath r.
Proof.
  intros Hexact r. pose proof (Hexact r) as He.
  pose proof (row_of_path_spec filePath r) as Hr.
  destruct (matches _ r), (row_of_path filePath r); try done.
  - symmetry. apply Hr, He. done.
  - apply He, Hr. done.
Qed.

Lemma rows_for_other_path filePath q (l : list RawRow) :
  q <> filePath ->
  rows_for q (List.filter (fun r => negb (row_of_path filePath r)) l) =
  rows_for q l.
Proof.
  intros Hne. unfold rows_for. rewrite filter_filter_and.
  apply filter_ext_in_list. intros r _.
  destruct (row_of_path q r) eqn:Hq; [|by rewrite andb_false_r].
  rewrite andb_true_r. apply negb_true_iff.
  destruct (row_of_path filePath r) eqn:Hp; [|done].
  apply row_of_path_spec in Hq, Hp. congruence.
Qed.

Section Deletions.
Context {S Connection EmbeddingFunction FileInfoTree : Type}.
Variable clock : nat -> Z.
Variable flattenFileInfoTree : FileInfoTree -> list FileInfo.
Variable tbl : LanceDBTable S.
Variable rows_of : S -> list RawRow.
Variable matches : string -> RawRow -> bool.
Hypothesis laws : StoreLaws tbl rows_of matches.
Implicit Types (this : RagnoteTable S Connection EmbeddingFunction).
Implicit Types (st : State S).

Lemma deleteAll_both this st s1 s2 :
  table this = Some tbl ->
  lance_delete tbl "content != ''" (store st) = (Ok tt, s1) ->
  lance_delete tbl "content = ''" s1 = (Ok tt, s2) ->
  deleteAllRowsInTable this st =
  {| res := Ok tt;
     final := {| store := s2; dates_read := dates_read st |};
     events := [TableDelete "content != ''" (Ok tt);
                TableDelete "content = ''" (Ok tt)] |}.
Proof.
  intros Ht H1 H2. unfold deleteAllRowsInTable, try_catch, bind.
  change (DatabaseFields.CONTENT ++ " != ''")%string with "content != ''"%string.
  change (DatabaseFields.CONTENT ++ " = ''")%string with "content = ''"%string.
  rewrite (delete_run _ _ _ _ _ _ Ht H1). cbn.
  rewrite (delete_run _ tbl _ _ (Ok tt) s2 Ht) by exact H2. by cbn.
Qed.

(** X4: When both delete calls of [deleteAllRowsInTable] are answered without
    error, no row whose content is a string is left in the table; the rows
    that are left were in the table before, and are those that neither
    filter selects, such as a row without a content. *)
Theorem deleteAllRowsInTable_clears_rows_with_content this st s1 s2 :
  table this = Some tbl ->
  content_split matches ->
  lance_delete tbl "content != ''" (store st) = (Ok tt, s1) ->
  lance_delete tbl "content = ''" s1 = (Ok tt, s2) ->
  let left := rows_of (store (final (deleteAllRowsInTable this st))) in
  left = List.filter (fun r => negb (matches "content != ''" r) &&
                               negb (matches "content = ''" r))
                     (rows_of (store st)) /\
  forall r : RawRow, r ∈ left ->
    r ∈ rows_of (store st) /\
    forall c, r !! "content"%string <> Some (VString c).
Proof.
  intros Ht Hsplit H1 H2 left. subst left.
  rewrite (deleteAll_both this st s1 s2 Ht H1 H2). cbn [final store].
  rewrite (law_delete _ _ _ laws _ _ _ H2), (law_delete _ _ _ laws _ _ _ H1).
  rewrite filter_filter_and. split; [done|].
  intros r Hr. apply list_elem_of_In, filter_In in Hr as [Hin Hm].
  split; [by apply list_elem_of_In|].
  intros c Hc. apply andb_true_iff in Hm as [Hm1 Hm2].
  apply negb_true_iff in Hm1, Hm2.
  destruct (Hsplit r c Hc); congruence.
Qed.

Lemma remove_loop_rows this (filePaths : list string) : forall st,
  table this = Some tbl ->
  (forall p, p ∈ filePaths -> path_filter_exact matches p) ->
  res (remove_loop this filePaths st) = Ok tt ->
  rows_of (store (final (remove_loop this filePaths st))) =
  List.filter (fun r => negb (row_of_paths filePaths r)) (rows_of (store st)).
Proof.
  induction filePaths as [|p ps IH]; intros st Ht Hexact Hres.
  - cbn. symmetry. apply forallb_filter_id. by apply forallb_forall.
  - cbn [remove_loop] in *.
    change (DatabaseFields.NOTE_PATH ++ " = " ++ dq ++ p ++ dq)%string
      with (path_equals p) in *.
    destruct (lance_delete tbl (path_equals p) (store st)) as [r s1] eqn:Hd.
    rewrite bind_res in Hres. rewrite bind_final.
    rewrite (delete_run _ _ _ _ _ _ Ht Hd) in *. cbn [res final] in *.
    destruct r as [[]|e]; [|done].
    rewrite IH; [|done| |done].
    + cbn [store]. rewrite (law_delete _ _ _ laws _ _ _ Hd).
      rewrite filter_filter_and. apply filter_ext_in_list. intros r _.
      rewrite (exact_filter_decides matches p)
        by (apply Hexact, list_elem_of_here).
      cbn. by rewrite negb_orb.
    + intros q Hq. apply Hexact. by apply list_elem_of_further.
Qed.

(** X20: When [removeTreeFromTable] returns normally, the rows of the paths of
    the tree are gone and every other row is still in the table, in the
    order it had. *)
Theorem removeTree_removes_the_rows_of_the_tree this fileTree st :
  table this = Some tbl ->
  let filePaths := map path (flattenFileInfoTree fileTree) in
  (forall p, p ∈ filePaths -> path_filter_exact matches p) ->
  let o := removeTreeFromTable flattenFileInfoTree this fileTree st in
  res o = Ok tt ->
  rows_of (store (final o)) =
    List.filter (fun r => negb (row_of_paths filePaths r))
                (rows_of (store st)) /\
  (forall p, p ∈ filePaths -> rows_for p (rows_of (store (final o))) = []) /\
  (forall q, q ∉ filePaths ->
     rows_for q (rows_of (store (final o))) = rows_for q (rows_of (store st))).
Proof.
  intros Ht filePaths Hexact o Hres. subst o.
  unfold removeTreeFromTable in *. fold filePaths in Hres |- *.
  rewrite (remove_loop_rows this filePaths st Ht Hexact Hres).
  split; [done|]. split.
  - intros p Hp. unfold rows_for. rewrite filter_filter_and.
    apply filter_none. intros r _.
    destruct (row_of_path p r) eqn:Hr; [|by rewrite andb_false_r].
    rewrite andb_true_r. apply negb_false_iff.
    unfold row_of_paths. apply existsb_exists. exists p.
    split; [by apply list_elem_of_In | done].
  - intros q Hq. unfold rows_for. rewrite filter_filter_and.
    apply filter_ext_in_list. intros r _.
    destruct (row_of_path q r) eqn:Hr; [|by rewrite andb_false_r].
    rewrite andb_true_r. apply negb_true_iff.
    destruct (row_of_paths filePaths r) eqn:Hps; [|done].
    unfold row_of_paths in Hps. apply existsb_exists in Hps as (p & Hin & Hp).
    apply row_of_path_spec in Hr, Hp.
    assert (p = q) as -> by congruence.
    destruct Hq. by apply list_elem_of_In.
Qed.

Lemma update_run this filePath content st s1 r s2 :
  table this = Some tbl ->
  lance_delete tbl (path_equals filePath) (store st) = (Ok tt, s1) ->
  lance_add tbl
    [entry_to_record {| notepath := filePath; vector := None;
                        content := content; subnoteindex := 0;
                        timeadded := clock (dates_read st) |}] s1 = (r, s2) ->
  final (updateNoteInTable clock this filePath content st) =
  {| store := s2; dates_read := Datatypes.S (dates_read st) |}.
Proof.
  intros Ht Hd Ha. unfold updateNoteInTable.
  change (DatabaseFields.NOTE_PATH ++ " = " ++ dq ++ filePath ++ dq)%string
    with (path_equals filePath).
  rewrite bind_final, (delete_run _ _ _ _ _ _ Ht Hd). cbn [res final].
  rewrite bind_final. cbn [new_Date res final store dates_read].
  change (RagnoteTable_add this ?d None)
    with (RagnoteTable_add this d (observer false)).
  rewrite (add_run _ tbl) by done. cbn [final store dates_read map].
  rewrite single_chunk. cbn [add_store]. by rewrite Ha.
Qed.

(** X22: An update touches the rows of its path only: when both store calls of
    [updateNoteInTable] are answered without error, the rows of every other
    path are the same after the update as before. *)
Theorem updateNoteInTable_keeps_other_paths this filePath content st s1 s2 q :
  table this = Some tbl ->
  path_filter_exact matches filePath ->
  lance_delete tbl (path_equals filePath) (store st) = (Ok tt, s1) ->
  lance_add tbl
    [entry_to_record {| notepath := filePath; vector := None;
                        content := content; subnoteindex := 0;
                        timeadded := clock (dates_read st) |}] s1
    = (Ok tt, s2) ->
  q <> filePath ->
  rows_for q
    (rows_of (store (final (updateNoteInTable clock this filePath content st))))
  = rows_for q (rows_of (store st)).
Proof.
  intros Ht Hexact Hd Ha Hne.
  rewrite (update_run this filePath content st s1 (Ok tt) s2 Ht Hd Ha).
  cbn [store].
  destruct (law_add _ _ _ laws _ _ _ Ha) as (stored & Hrows & Hkept).
  apply Forall2_cons_inv_l in Hkept as (kept & rest & Hk & Hnil & ->).
  apply Forall2_nil_inv_l in Hnil as ->.
  destruct (kept_entry _ _ Hk) as (_ & Hp & _). cbn in Hp.
  rewrite Hrows, (law_delete _ _ _ laws _ _ _ Hd).
  unfold rows_for at 1. rewrite List.filter_app. cbn [List.filter].
  replace (row_of_path q kept) with false.
  - rewrite app_nil_r.
    rewrite (filter_ext_in_list
               (fun r => negb (matches (path_equals filePath) r))
               (fun r => negb (row_of_path filePath r)))
      by (intros r _; by rewrite (exact_filter_decides matches filePath)).
    by apply rows_for_other_path.
  - symmetry. apply not_true_is_false. intros Hq.
    apply row_of_path_spec in Hq. congruence.
Qed.

End Deletions.

(** ** The shape check *)

(** X23: The shape check accepts a row exactly when it has the five fields, and
    then returns it unchanged.  A record as [convertFileTypeToDBType] and
    [updateNoteInTable] make it, without a vector, does not pass; the row
    that a store keeps of it, with a vector added, does. *)
Theorem shape_check_of_records (r : RawRow) (e : RagnoteDBEntry) :
  (convertRawDBResultToRagnoteDBEntry r = Some r <->
   is_Some (r !! "notepath"%string) /\ is_Some (r !! "vector"%string) /\
   is_Some (r !! "content"%string) /\ is_Some (r !! "subnoteindex"%string) /\
   is_Some (r !! "timeadded"%string)) /\
  (convertRawDBResultToRagnoteDBEntry r = None \/
   convertRawDBResultToRagnoteDBEntry r = Some r) /\
  (convertRawDBResultToRagnoteDBEntry (entry_to_record e) =
   match vector e with
   | Some _ => Some (entry_to_record e)
   | None => None
   end) /\
  (forall kept, kept_as (entry_to_record e) kept ->
     convertRawDBResultToRagnoteDBEntry kept = Some kept).
Proof.
  split; [|split; [|split]].
  - split.
    + unfold convertRawDBResultToRagnoteDBEntry, has_key,
        DatabaseFields.NOTE_PATH, DatabaseFields.VECTOR,
        DatabaseFields.CONTENT, DatabaseFields.SUB_NOTE_INDEX,
        DatabaseFields.TIME_ADDED.
      destruct (r !! "notepath"%string), (r !! "vector"%string),
        (r !! "content"%string), (r !! "subnoteindex"%string),
        (r !! "timeadded"%string); cbn; try done.
      all: intros _; repeat split; by eexists.
    + intros (H1 & H2 & H3 & H4 & H5). by apply convert_some.
  - unfold convertRawDBResultToRagnoteDBEntry. destruct (_ && _); auto.
  - destruct (entry_to_record_lookup e) as (H1 & H2 & H3 & H4).
    unfold convertRawDBResultToRagnoteDBEntry, has_key,
      DatabaseFields.NOTE_PATH, DatabaseFields.VECTOR,
      DatabaseFields.CONTENT, DatabaseFields.SUB_NOTE_INDEX,
      DatabaseFields.TIME_ADDED.
    rewrite H1, H2, H3, H4. cbn.
    unfold entry_to_record. destruct (vector e) as [v|].
    + by rewrite lookup_insert_eq.
    + by repeat (rewrite lookup_insert_ne by done).
  - intros kept Hk. by destruct (kept_entry e kept Hk).
Qed.

(** * The further properties on the in-memory store *)

Import Cases.

Ltac in_list :=
  repeat first [apply list_elem_of_here | apply list_elem_of_further].

Lemma memstore_path_filter p :
  p ∈ ["a.md"; "b.md"; "c.md"]%string ->
  path_filter_exact MemStore.matches p.
Proof.
  intros Hp r. unfold MemStore.matches.
  repeat (apply elem_of_cons in Hp as [->|Hp]); [| | |by apply elem_of_nil in Hp].
  - change (MemStore.parse_filter (path_equals "a.md"))
      with (Some ("notepath"%string, false, "a.md"%string)).
    cbn. apply row_of_path_spec.
  - change (MemStore.parse_filter (path_equals "b.md"))
      with (Some ("notepath"%string, false, "b.md"%string)).
    cbn. apply row_of_path_spec.
  - change (MemStore.parse_filter (path_equals "c.md"))
      with (Some ("notepath"%string, false, "c.md"%string)).
    cbn. apply row_of_path_spec.
Qed.

Lemma memstore_path_query p :
  p ∈ ["a.md"; "b.md"; "c.md"]%string ->
  path_query_exact MemStore.matches p.
Proof.
  intros Hp r. unfold MemStore.matches.
  repeat (apply elem_of_cons in Hp as [->|Hp]); [| | |by apply elem_of_nil in Hp].
  - change (MemStore.parse_filter (path_is "a.md"))
      with (Some ("notepath"%string, false, "a.md"%string)).
    cbn. apply row_of_path_spec.
  - change (MemStore.parse_filter (path_is "b.md"))
      with (Some ("notepath"%string, false, "b.md"%string)).
    cbn. apply row_of_path_spec.
  - change (MemStore.parse_filter (path_is "c.md"))
      with (Some ("notepath"%string, false, "c.md"%string)).
    cbn. apply row_of_path_spec.
Qed.

Lemma add_fills_chunks_witness :
  table table0 = Some lance0 /\
  write_calls (events (RagnoteTable_add table0 (Scenario.batch 120)
                         (observer true) empty_store)) !! 2
    = Some (slice (map entry_to_record (Scenario.batch 120))
              (2 * chunkSize) (2 * chunkSize + chunkSize)) /\
  length (slice (map entry_to_record (Scenario.batch 120))
            (2 * chunkSize) (2 * chunkSize + chunkSize))
    = 120 - 2 * chunkSize.
Proof.
  assert (Hk : write_calls (events (RagnoteTable_add table0 (Scenario.batch 120)
                                      (observer true) empty_store)) !! 2
               = Some (slice (map entry_to_record (Scenario.batch 120))
                         (2 * chunkSize) (2 * chunkSize + chunkSize))).
  { rewrite (add_run_writes table0 lance0) by reflexivity.
    apply chunk_loop_lookup. rewrite length_map. vm_compute. lia. }
  split; [reflexivity|]. split; [exact Hk|].
  exact (proj2 (add_fills_chunks table0 lance0 (Scenario.batch 120) true
                  empty_store eq_refl 2 _ Hk) eq_refl).
Defined.

Lemma add_callback_error_escapes_witness :
  table table0 = Some lance0 /\
  res (RagnoteTable_add table0 (Scenario.batch 120) (Some failing_callback)
         empty_store) = Throw (Error "callback failed") /\
  length (write_calls
            (events (RagnoteTable_add table0 (Scenario.batch 120)
                       (Some failing_callback) empty_store))) = 1.
Proof.
  destruct (chunk_loop (map entry_to_record (Scenario.batch 120)) 0 [])
    as [|chunk rest] eqn:Hc.
  { apply (f_equal length) in Hc.
    rewrite chunk_loop_length, length_map in Hc. discriminate Hc. }
  destruct (add_callback_error_escapes table0 lance0 (Scenario.batch 120)
              failing_callback empty_store chunk rest
              (Error "callback failed") eq_refl Hc eq_refl)
    as (Hres & Hev & _).
  split; [reflexivity|]. split; [exact Hres|].
  rewrite Hev. reflexivity.
Defined.

Lemma search_issues_one_query_witness :
  table table0 = Some lance0 /\
  query_calls (events (RagnoteTable_search table0 "alpha" 10
                         (Some EmptyString) (MemStore.state two_notes [] [])))
    = [ {| q_key := QText "alpha"; q_limit := Some 10; q_filter := None |} ].
Proof.
  split; [reflexivity|].
  destruct (search_issues_one_query table0 lance0 "alpha" 10
              (Some EmptyString) (MemStore.state two_notes [] []) eq_refl)
    as (Hev & _).
  rewrite Hev. reflexivity.
Defined.

Lemma filter_issues_one_query_witness :
  table table0 = Some lance0 /\
  query_calls (events (RagnoteTable_filter table0 "content = ''" None
                         (MemStore.state two_notes [] [])))
    = [ {| q_key := QVector (replicate 768 1%Z); q_limit := Some 10;
           q_filter := Some "content = ''"%string |} ].
Proof.
  split; [reflexivity|].
  destruct (filter_issues_one_query table0 lance0 "content = ''" None
              (MemStore.state two_notes [] []) eq_refl) as (Hev & _).
  rewrite Hev. reflexivity.
Defined.

Lemma addTreeToTable_writes_every_file_witness :
  table table0 = Some lance0 /\
  res (addTreeToTable Scenario.clock Scenario.readFileSync
         Scenario.flattenFileInfoTree table0 three_files
         (MemStore.state two_notes [true] [])) = Ok tt.
Proof.
  split; [reflexivity|].
  exact (proj1 (addTreeToTable_writes_every_file Scenario.clock
                  Scenario.readFileSync Scenario.flattenFileInfoTree
                  table0 lance0 three_files
                  (MemStore.state two_notes [true] []) eq_refl)).
Defined.

Lemma repopulate_writes_the_missing_files_witness :
  table table0 = Some lance0 /\
  res (getTableAsArray table0 one_note)
    = Ok [Some (Scenario.stored "a.md" "alpha" 1000)] /\
  Forall is_Some [Some (Scenario.stored "a.md" "alpha" 1000)] /\
  concat (write_calls (events (repopulate one_note)))
    = [entry_to_record (Scenario.note "b.md" EmptyString 1000)].
Proof.
  assert (Harr : res (getTableAsArray table0 one_note)
                 = Ok [Some (Scenario.stored "a.md" "alpha" 1000)])
    by (vm_compute; reflexivity).
  assert (Hnn : Forall is_Some [Some (Scenario.stored "a.md" "alpha" 1000)])
    by (constructor; [by eexists | constructor]).
  split; [reflexivity|]. split; [exact Harr|]. split; [exact Hnn|].
  destruct (repopulate_writes_the_missing_files Scenario.clock
              Scenario.readFileSync Scenario.GetFilesInfoList table0 lance0
              "notes" [".md"%string] true one_note _ eq_refl Harr Hnn)
    as (Hw & _).
  unfold repopulate. rewrite Hw. vm_compute. reflexivity.
Defined.

Lemma repopulate_reports_progress_witness :
  table table0 = Some lance0 /\
  res (getTableAsArray table0 one_note)
    = Ok [Some (Scenario.stored "a.md" "alpha" 1000)] /\
  Forall is_Some [Some (Scenario.stored "a.md" "alpha" 1000)] /\
  length (progress_calls (events (repopulate one_note))) = 2.
Proof.
  assert (Harr : res (getTableAsArray table0 one_note)
                 = Ok [Some (Scenario.stored "a.md" "alpha" 1000)])
    by (vm_compute; reflexivity).
  assert (Hnn : Forall is_Some [Some (Scenario.stored "a.md" "alpha" 1000)])
    by (constructor; [by eexists | constructor]).
  split; [reflexivity|]. split; [exact Harr|]. split; [exact Hnn|].
  destruct (repopulate_reports_progress Scenario.clock
              Scenario.readFileSync Scenario.GetFilesInfoList table0 lance0
              "notes" [".md"%string] one_note _ eq_refl Harr Hnn)
    as (Hp & _).
  unfold repopulate. change (observer true) with (Some (spy (S:=MemStore.t))).
  rewrite Hp. vm_compute. reflexivity.
Defined.

Lemma repopulate_throws_on_malformed_row_witness :
  res (getTableAsArray table0 unembedded_table) = Ok [None] /\
  None ∈ [@None RawRow] /\
  res (repopulate unembedded_table)
    = Throw (TypeError "Cannot read properties of null").
Proof.
  assert (Harr : res (getTableAsArray table0 unembedded_table) = Ok [None])
    by (vm_compute; reflexivity).
  split; [exact Harr|]. split; [apply list_elem_of_here|].
  exact (proj1 (repopulate_throws_on_malformed_row Scenario.clock
                  Scenario.readFileSync Scenario.GetFilesInfoList table0
                  "notes" [".md"%string] true unembedded_table [None]
                  Harr (list_elem_of_here _ _))).
Defined.

Lemma getTableAsArray_covers_the_table_witness :
  table table0 = Some lance0 /\
  res (getTableAsArray table0 with_stray)
    = Ok [Some (Scenario.stored "a.md" "alpha" 1000);
          Some (Scenario.stored "b.md" EmptyString 1000)] /\
  final (getTableAsArray table0 with_stray) = with_stray.
Proof.
  assert (Harr : res (getTableAsArray table0 with_stray)
                 = Ok [Some (Scenario.stored "a.md" "alpha" 1000);
                       Some (Scenario.stored "b.md" EmptyString 1000)])
    by (vm_compute; reflexivity).
  split; [reflexivity|]. split; [exact Harr|].
  exact (proj1 (getTableAsArray_covers_the_table lance0 MemStore.rows
                  MemStore.matches (memstore_laws _) table0 with_stray _
                  eq_refl memstore_content_split Harr)).
Defined.

Lemma isFileInDB_finds_the_rows_of_a_path_witness :
  table table0 = Some lance0 /\
  path_query_exact MemStore.matches "b.md" /\
  length (MemStore.rows (store (MemStore.state two_notes [] []))) <= 2 /\
  res (isFileInDB table0 "b.md" 2 (MemStore.state two_notes [] [])) = Ok true /\
  rows_for "b.md" (MemStore.rows (store (MemStore.state two_notes [] []))) <> [].
Proof.
  assert (Hq : path_query_exact MemStore.matches "b.md")
    by (apply memstore_path_query; in_list).
  assert (Hlen : length (MemStore.rows (store (MemStore.state two_notes [] [])))
                 <= 2) by (vm_compute; lia).
  assert (Hres : res (isFileInDB table0 "b.md" 2
                        (MemStore.state two_notes [] [])) = Ok true)
    by (vm_compute; reflexivity).
  split; [reflexivity|]. split; [exact Hq|]. split; [exact Hlen|].
  split; [exact Hres|].
  exact (proj1 (isFileInDB_finds_the_rows_of_a_path lance0 MemStore.rows
                  MemStore.matches (memstore_laws _) table0 "b.md" 2
                  (MemStore.state two_notes [] []) true eq_refl Hq Hlen Hres)
               eq_refl).
Defined.


Lemma add_then_getTableAsArray_witness :
  table table0 = Some lance0 /\
  writes_succeeded
    (events (RagnoteTable_add table0 both_notes (observer false) empty_store))
    = true /\
  Scenario.note "b.md" EmptyString 1001 ∈ both_notes /\
  exists r : RawRow,
    holds_entry r (Scenario.note "b.md" EmptyString 1001).
Proof.
  assert (Hws : writes_succeeded
                  (events (RagnoteTable_add table0 both_notes (observer false)
                             empty_store)) = true)
    by (vm_compute; reflexivity).
  assert (Hin : Scenario.note "b.md" EmptyString 1001 ∈ both_notes)
    by (apply list_elem_of_further, list_elem_of_here).
  pose (arr := [Some (Scenario.stored "a.md" "alpha" 1000);
                Some (Scenario.stored "b.md" EmptyString 1001)]).
  assert (Harr : res (getTableAsArray table0
                        (final (RagnoteTable_add table0 both_notes
                                  (observer false) empty_store))) = Ok arr)
    by (vm_compute; reflexivity).
  split; [reflexivity|]. split; [exact Hws|]. split; [exact Hin|].
  destruct (add_then_getTableAsArray lance0 MemStore.rows MemStore.matches
              (memstore_laws _) table0 both_notes false empty_store arr
              eq_refl memstore_content_split Hws Harr _ Hin) as (r & _ & Hr).
  by exists r.
Defined.

Lemma deleteAllRowsInTable_clears_rows_with_content_witness :
  table table0 = Some lance0 /\
  MemStore.rows (store (final (deleteAllRowsInTable table0 with_stray)))
    = [Scenario.malformed].
Proof.
  split; [reflexivity|].
  pose (s1 := snd (lance_delete lance0 "content != ''" (store with_stray))).
  pose (s2 := snd (lance_delete lance0 "content = ''" s1)).
  assert (H1 : lance_delete lance0 "content != ''" (store with_stray)
               = (Ok tt, s1)) by (vm_compute; reflexivity).
  assert (H2 : lance_delete lance0 "content = ''" s1 = (Ok tt, s2))
    by (vm_compute; reflexivity).
  destruct (deleteAllRowsInTable_clears_rows_with_content lance0 MemStore.rows
              MemStore.matches (memstore_laws _) table0 with_stray s1 s2
              eq_refl memstore_content_split H1 H2) as (Hleft & _).
  rewrite Hleft. vm_compute. reflexivity.
Defined.

Lemma removeTree_removes_the_rows_of_the_tree_witness :
  table table0 = Some lance0 /\
  res (removeTreeFromTable Scenario.flattenFileInfoTree table0 Scenario.files
         three_notes) = Ok tt /\
  rows_for "a.md"
    (MemStore.rows
       (store (final (removeTreeFromTable Scenario.flattenFileInfoTree table0
                        Scenario.files three_notes)))) = [] /\
  rows_for "c.md"
    (MemStore.rows
       (store (final (removeTreeFromTable Scenario.flattenFileInfoTree table0
                        Scenario.files three_notes))))
    = [Scenario.stored "c.md" "gamma" 1000].
Proof.
  assert (Hres : res (removeTreeFromTable Scenario.flattenFileInfoTree table0
                        Scenario.files three_notes) = Ok tt)
    by (vm_compute; reflexivity).
  assert (Hexact : forall p,
            p ∈ map path (Scenario.flattenFileInfoTree Scenario.files) ->
            path_filter_exact MemStore.matches p).
  { intros p Hp. apply memstore_path_filter. cbn in Hp.
    rewrite !elem_of_cons in Hp.
    destruct Hp as [->|[->|Hp]]; [in_list | in_list |].
    by apply elem_of_nil in Hp. }
  destruct (removeTree_removes_the_rows_of_the_tree
              Scenario.flattenFileInfoTree lance0 MemStore.rows
              MemStore.matches (memstore_laws _) table0 Scenario.files
              three_notes eq_refl Hexact Hres) as (_ & Hgone & Hkept).
  split; [reflexivity|]. split; [exact Hres|]. split.
  - apply Hgone. apply list_elem_of_here.
  - rewrite Hkept; [reflexivity|]. cbn. rewrite !elem_of_cons.
    intros [H|[H|H]]; [discriminate H | discriminate H |].
    by apply elem_of_nil in H.
Defined.

Lemma updateNoteInTable_keeps_other_paths_witness :
  table table0 = Some lance0 /\
  path_filter_exact MemStore.matches "a.md" /\
  "b.md"%string <> "a.md"%string /\
  rows_for "b.md" (MemStore.rows (store (final update_a)))
    = [Scenario.stored "b.md" EmptyString 1000].
Proof.
  pose (s0 := store (MemStore.state two_notes [] [])).
  pose (s1 := snd (lance_delete lance0 (path_equals "a.md") s0)).
  pose (record := entry_to_record (Scenario.note "a.md" "beta" 1000)).
  pose (s2 := snd (lance_add lance0 [record] s1)).
  assert (Hd : lance_delete lance0 (path_equals "a.md") s0 = (Ok tt, s1))
    by (vm_compute; reflexivity).
  assert (Ha : lance_add lance0 [record] s1 = (Ok tt, s2))
    by (vm_compute; reflexivity).
  assert (Hne : "b.md"%string <> "a.md"%string) by discriminate.
  split; [reflexivity|]. split; [apply memstore_path_a|]. split; [exact Hne|].
  unfold update_a.
  rewrite (updateNoteInTable_keeps_other_paths Scenario.clock lance0
             MemStore.rows MemStore.matches (memstore_laws _) table0
             "a.md" "beta" (MemStore.state two_notes [] []) s1 s2 "b.md"
             eq_refl memstore_path_a Hd Ha Hne).
  reflexivity.
Defined.

(** ** Before [initialize], and after a failed call *)

Section EntryPoints.
Context {S Connection EmbeddingFunction FileInfoTree : Type}.
Variable clock : nat -> Z.
Variable readFileSync : string -> option string.
Variable GetFilesInfoList : string -> list string -> list FileInfo.
Variable flattenFileInfoTree : FileInfoTree -> list FileInfo.
Implicit Types (this : RagnoteTable S Connection EmbeddingFunction).
Implicit Types (st : State S) (tbl : LanceDBTable S).

(** X24: On a table on which [initialize] has not run, the entry points differ:
    [addTreeToTable] returns normally although it has written nothing, and
    so does [deleteAllRowsInTable]; [maybeRePopulateTable],
    [updateNoteInTable] and [removeTreeFromTable] on a tree that is not
    empty throw the [TypeError] of the unset table; none of them reaches
    the store. *)
Theorem uninitialized_entry_points this st :
  table this = None ->
  let undefined := TypeError "Cannot read properties of undefined" in
  (forall fileTree,
     let o := addTreeToTable clock readFileSync flattenFileInfoTree this
                fileTree st in
     res o = Ok tt /\ events o = []) /\
  (res (deleteAllRowsInTable this st) = Ok tt /\
   events (deleteAllRowsInTable this st) = []) /\
  (forall directoryPath extensions observed,
     let o := maybeRePopulateTable clock readFileSync GetFilesInfoList this
                directoryPath extensions (observer observed) st in
     res o = Throw undefined /\ events o = []) /\
  (forall filePath content,
     let o := updateNoteInTable clock this filePath content st in
     res o = Throw undefined /\ events o = []) /\
  (forall fileTree,
     let o := removeTreeFromTable flattenFileInfoTree this fileTree st in
     (flattenFileInfoTree fileTree = [] -> res o = Ok tt /\ events o = []) /\
     (flattenFileInfoTree fileTree <> [] ->
      res o = Throw undefined /\ events o = [])).
Proof.
  intros Hu undefined. split; [|split; [|split; [|split]]].
  - intros fileTree o. subst o.
    unfold addTreeToTable, convertTreeToDBEntries.
    rewrite bind_res, bind_events, convert_files_entries.
    cbn [res final events app].
    change (RagnoteTable_add this ?d None)
      with (RagnoteTable_add this d (observer false)).
    unfold RagnoteTable_add. by rewrite add_loop_uninitialized.
  - unfold deleteAllRowsInTable, try_catch, bind, RagnoteTable_delete.
    by rewrite this_table_undefined.
  - intros directoryPath extensions observed o. subst o.
    unfold maybeRePopulateTable, getTableAsArray, RagnoteTable_countRows.
    rewrite !bind_res, !bind_events, this_table_undefined by done. done.
  - intros filePath content o. subst o.
    unfold updateNoteInTable, RagnoteTable_delete.
    rewrite !bind_res, !bind_events, this_table_undefined by done. done.
  - intros fileTree o. subst o. unfold removeTreeFromTable.
    destruct (flattenFileInfoTree fileTree) as [|f rest]; split; try done.
    intros _. cbn [map remove_loop]. unfold RagnoteTable_delete.
    rewrite !bind_res, !bind_events, this_table_undefined by done. done.
Qed.

(** X15: A count or a query that fails aborts [getTableAsArray]: the error of
    the store is the error it throws, the failed call is the last call it
    issues, and the calls before it were all answered. *)
Theorem getTableAsArray_stops_at_first_error this tbl st e :
  table this = Some tbl ->
  res (getTableAsArray this st) = Throw e ->
  exists answered failed,
    events (getTableAsArray this st) = answered ++ [failed] /\
    (failed = TableCountRows (Throw e) \/
     exists q, failed = TableExecute q (Throw e)) /\
    length answered <= 2 /\
    Forall (fun ev => (exists n, ev = TableCountRows (Ok n)) \/
                      (exists q rs, ev = TableExecute q (Ok rs)))
           answered.
Proof.
  intros Ht. unfold getTableAsArray.
  destruct (lance_countRows tbl (store st)) as [rc s1] eqn:Hc.
  unfold bind. rewrite (countRows_run _ _ _ _ _ Ht Hc). cbn.
  destruct rc as [n|e0]; cbn.
  - destruct (n =? 0); [done|].
    match goal with |- context [RagnoteTable_filter this ?f (Some n) ?s] =>
      destruct (lance_execute tbl (filter_query f n) (store s)) as [r1 s2]
        eqn:H1;
      rewrite (filter_run _ tbl f (Some n) s r1 s2 Ht) by exact H1 end.
    cbn. destruct r1 as [rs1|e1]; cbn.
    + match goal with |- context [RagnoteTable_filter this ?f (Some n) ?s] =>
        destruct (lance_execute tbl (filter_query f n) (store s)) as [r2 s3]
          eqn:H2;
        rewrite (filter_run _ tbl f (Some n) s r2 s3 Ht) by exact H2 end.
      cbn. destruct r2 as [rs2|e2]; cbn; [done|].
      intros [= ->]. eexists [_; _], _. split; [reflexivity|].
      split; [right; by eexists|]. split; [cbn; lia|].
      constructor; [left; by exists n|].
      constructor; [right; by eexists _, rs1 | constructor].
    + intros [= ->]. eexists [_], _. split; [reflexivity|].
      split; [right; by eexists|]. split; [cbn; lia|].
      constructor; [left; by exists n | constructor].
  - intros [= ->]. exists [], (TableCountRows (Throw e)).
    split; [done|]. split; [by left|]. split; [cbn; lia | constructor].
Qed.

End EntryPoints.

(** ** Writing, then looking up *)

Section Lookups.
Context {S Connection EmbeddingFunction FileInfoTree : Type}.
Variable clock : nat -> Z.
Variable flattenFileInfoTree : FileInfoTree -> list FileInfo.
Variable tbl : LanceDBTable S.
Variable rows_of : S -> list RawRow.
Variable matches : string -> RawRow -> bool.
Hypothesis laws : StoreLaws tbl rows_of matches.
Implicit Types (this : RagnoteTable S Connection EmbeddingFunction).
Implicit Types (st : State S).




End Lookups.

Lemma uninitialized_entry_points_witness :
  table fresh = None /\
  res (addTreeToTable Scenario.clock Scenario.readFileSync
         Scenario.flattenFileInfoTree fresh Scenario.files empty_store)
    = Ok tt /\
  events (addTreeToTable Scenario.clock Scenario.readFileSync
            Scenario.flattenFileInfoTree fresh Scenario.files empty_store)
    = [].
Proof.
  split; [reflexivity|].
  exact (proj1 (uninitialized_entry_points Scenario.clock
                  Scenario.readFileSync Scenario.GetFilesInfoList
                  Scenario.flattenFileInfoTree fresh empty_store eq_refl)
               Scenario.files).
Defined.

Lemma getTableAsArray_stops_at_first_error_witness :
  table offline_table = Some offline /\
  res (getTableAsArray offline_table offline_state)
    = Throw (Error "unavailable") /\
  exists answered failed,
    events (getTableAsArray offline_table offline_state)
      = answered ++ [failed] /\
    length answered <= 2.
Proof.
  assert (Hres : res (getTableAsArray offline_table offline_state)
                 = Throw (Error "unavailable")) by reflexivity.
  split; [reflexivity|]. split; [exact Hres|].
  destruct (getTableAsArray_stops_at_first_error offline_table offline
              offline_state (Error "unavailable") eq_refl Hres)
    as (answered & failed & Hev & _ & Hlen & _).
  exists answered, failed. split; [exact Hev | exact Hlen].
Defined.


